(** * Book store back end: orders service and gateway health check

    A shallow embedding of the orders router (routes/orders.js: list, get by
    id, create, update status, cancel) and of the gateway's [/health]
    aggregator (gateway/server.js), with the properties the specification
    states about them; and of the users router (routes/users.js) and the
    get, update and delete handlers of the books router (routes/books.js),
    with properties read off the code.

    JavaScript numbers are IEEE 754 binary64 values: they are Rocq's primitive
    floats.  Request bodies, query strings and catalog records are taken at
    the types the routes document, strings and numbers, and a property that
    may be absent is an [option] ([None] is [undefined]); JSON values of other
    types are outside the model.  The outbound HTTP requests, the random
    order id and the clock are answered by an explicit environment, and the
    in-memory [orders] array is a list threaded through every handler.  A
    run is that of one request: no other request is interleaved at its
    [await]s.

    The addresses of the outbound requests are written between single quotes
    in both routers, so they are string literals in which [${...}] stands for
    itself.  The literals are kept as they are ([url], [health_url]), and
    [client] and [health_client] are the environments in which the HTTP
    client answers by the address it is given and by nothing else. *)

From Stdlib Require Import ZArith Ascii String PrimFloat SpecFloat FloatOps FloatAxioms.
From stdpp Require Import base option list strings relations gmap.

Set Warnings "-inexact-float".
Open Scope string_scope.
Open Scope list_scope.

(** ** JavaScript values of the handlers *)

Module Js.

(** [!v] for a value that is a string or [undefined]. *)
Definition truthy_string (v : option string) : bool :=
  match v with
  | Some s => negb (String.eqb s "")
  | None => false
  end.

(** [!v] for a value that is a number or [undefined]: [0], [-0] and [NaN]
    are falsy. *)
Definition truthy_number (v : option float) : bool :=
  match v with
  | Some x => negb (is_zero x || is_nan x)
  | None => false
  end.

(** [ToNumber]: [undefined] converts to [NaN]. *)
Definition ToNumber (v : option float) : float :=
  match v with
  | Some x => x
  | None => nan
  end.

(** The string [Number.prototype.toFixed] returns, by its shape. *)
Inductive NumberString :=
| StrNaN
| StrInfinity (negative : bool)
| StrFixed (negative : bool) (n : Z)   (* the digits of [n], two of them after the point *)
| StrShortest (x : float).              (* [ToString x], for [|x| >= 1e21] *)

(** The integer [n] for which [n / 100] is closest to [m * 2^e], the
    larger one when two are as close. *)
Definition nearest_hundredth (m : positive) (e : Z) : Z :=
  match e with
  | Zneg p => (2 * (Zpos m * 100) + 2 ^ Zpos p) / (2 * 2 ^ Zpos p)
  | _ => Zpos m * 100 * 2 ^ e
  end.

(** [x.toFixed(2)] *)
Definition toFixed2 (x : float) : NumberString :=
  match Prim2SF x with
  | S754_nan => StrNaN
  | S754_infinity s => StrInfinity s
  | S754_zero _ => StrFixed false 0
  | S754_finite s m e =>
      if (1e21 <=? abs x)%float then StrShortest x
      else StrFixed s (nearest_hundredth m e)
  end.

(** [Number.parseFloat] on such a string: the binary64 value nearest to
    the decimal it spells. *)
Definition parseFloat (s : NumberString) : float :=
  match s with
  | StrNaN => nan
  | StrInfinity s => if s then neg_infinity else infinity
  | StrFixed s (Zpos n) =>
      SF2Prim (SFdiv prec emax (S754_finite s n 0) (S754_finite false 100 0))
  | StrFixed s _ => if s then neg_zero else zero
  | StrShortest x => x
  end.

(** [Number.isInteger] *)
Definition isInteger (x : float) : bool :=
  match Prim2SF x with
  | S754_zero _ => true
  | S754_finite _ m (Zneg p) => (Zpos m mod 2 ^ Zpos p =? 0)%Z
  | S754_finite _ _ _ => true
  | _ => false
  end.

End Js.

(** ** Data model *)

(** A line of an order: the creation handler copies [bookId] and [quantity]
    from the request item and adds the resolved [price]. *)
Record OrderItem := mkOrderItem {
  bookId : option string;
  quantity : option float;
  price : option float;
}.

Record Order := mkOrder {
  id : string;
  userId : option string;
  items : list OrderItem;
  totalAmount : float;
  status : string;
  createdAt : string;
}.

(** The [orders] array with which the module starts. *)
Definition seed (uuid now : string) : list Order :=
  [ {| id := uuid;
       userId := Some "user-1";
       items := [ mkOrderItem (Some "book-1") (Some 2%float) (Some 12.99%float);
                  mkOrderItem (Some "book-2") (Some 1%float) (Some 14.99%float) ];
       totalAmount := 40.97%float;
       status := "confirmed";
       createdAt := now |} ].

(** What a handler sends back. *)
Inductive Body :=
| ErrorBody (error : string) (code : nat)
| OrderBody (order : Order)
| OrdersBody (orders : list Order)
| CancelBody (message : string) (order : Order).

Record Response := mkResponse {
  statusCode : nat;
  body : Body;
}.

(** [res.status(c).json({ error, code: c })] *)
Definition fail (c : nat) (error : string) : Response :=
  mkResponse c (ErrorBody error c).

(** [res.json(b)] *)
Definition json (b : Body) : Response := mkResponse 200 b.

(** ** The order store: list, get by id, update status, cancel *)

(** [req.query] of [GET /]. *)
Module Query.
Record t := mk {
  userId : option string;
  status : option string;
}.
End Query.

(** [router.get("/")]; [filter] keeps the order of the array. *)
Definition list_orders (orders : list Order) (query : Query.t) : Response :=
  let filteredOrders := orders in
  let filteredOrders :=
    if Js.truthy_string (Query.userId query)
    then filter (fun order => userId order = Query.userId query) filteredOrders
    else filteredOrders in
  let filteredOrders :=
    if Js.truthy_string (Query.status query)
    then filter (fun order => Some (status order) = Query.status query) filteredOrders
    else filteredOrders in
  json (OrdersBody filteredOrders).

(** [orders.findIndex((o) => o.id === req.params.id)], with the order found;
    [None] is JavaScript's [-1]. *)
Definition findIndex (orders : list Order) (rid : string) : option (nat * Order) :=
  list_find (fun o => id o = rid) orders.

(** [router.get("/:id")] *)
Definition get_order (orders : list Order) (rid : string) : Response :=
  match findIndex orders rid with
  | None => fail 404 "Order not found"
  | Some (_, order) => json (OrderBody order)
  end.

Definition validStatuses : list string :=
  ["pending"; "confirmed"; "shipped"; "delivered"; "cancelled"].

(** [validStatuses.includes(status)] *)
Definition includes (l : list string) (s : string) : bool :=
  existsb (String.eqb s) l.

(** [o.status = s]: the other fields stay as they are. *)
Definition set_status (s : string) (o : Order) : Order :=
  {| id := id o; userId := userId o; items := items o;
     totalAmount := totalAmount o; status := s; createdAt := createdAt o |}.

(** [router.patch("/:id/status")]: the response and the [orders] array
    afterwards. *)
Definition patch_status (orders : list Order) (rid : string)
    (status : option string) : Response * list Order :=
  match status with
  | None => (fail 400 "Valid status is required", orders)
  | Some s =>
      if negb (Js.truthy_string (Some s)) || negb (includes validStatuses s)
      then (fail 400 "Valid status is required", orders)
      else
        match findIndex orders rid with
        | None => (fail 404 "Order not found", orders)
        | Some (orderIndex, order) =>
            (json (OrderBody (set_status s order)),
             alter (set_status s) orderIndex orders)
        end
  end.

(** [router.delete("/:id")]: cancels, the array keeps its length. *)
Definition cancel_order (orders : list Order) (rid : string)
    : Response * list Order :=
  match findIndex orders rid with
  | None => (fail 404 "Order not found", orders)
  | Some (orderIndex, order) =>
      (json (CancelBody "Order cancelled successfully" (set_status "cancelled" order)),
       alter (set_status "cancelled") orderIndex orders)
  end.

(** ** Order creation *)

(** [req.body] of [POST /]: [{ userId, items: [{ bookId, quantity }] }],
    every property optional. *)
Module Req.
Record Item := mkItem {
  bookId : option string;
  quantity : option float;
}.
Record Body := mkBody {
  userId : option string;
  items : option (list Item);
}.
End Req.

(** The book record of the catalog, as far as the handler reads it. *)
Module Catalog.
Record Book := mkBook { price : option float }.
End Catalog.

(** An outbound [axios.get], named by the place of the handler that sends
    it and by the value the handler holds there: the user lookup of the
    body's [userId], or the price lookup of an item's [bookId].  These are
    labels for the statements; the address that is passed to the client is
    [url] below, and carries neither. *)
Inductive Request :=
| GetUser (userId : option string)    (* the [axios.get] of the user check *)
| GetBook (bookId : option string).   (* the [axios.get] of the item loop *)

(** How an [axios.get] settles: the promise rejects (time-out, network
    error, status outside 2xx), or it resolves with [response.data], which
    is [None] for a [null] body. *)
Inductive Reply :=
| Rejected
| Resolved (data : option Catalog.Book).

(** The handler as a tree of its effects, in program order. *)
Inductive Handler (A : Type) : Type :=
| Ret (a : A)
| Await (r : Request) (k : Reply -> Handler A)
| ConsoleLog (msg : string) (k : Handler A)
| Uuidv4 (k : string -> Handler A)
| NowISO (k : string -> Handler A)
| Push (o : Order) (k : Handler A).
Arguments Ret {A} a.
Arguments Await {A} r k.
Arguments ConsoleLog {A} msg k.
Arguments Uuidv4 {A} k.
Arguments NowISO {A} k.
Arguments Push {A} o k.

Fixpoint bind {A B : Type} (m : Handler A) (f : A -> Handler B) : Handler B :=
  match m with
  | Ret a => f a
  | Await r k => Await r (fun x => bind (k x) f)
  | ConsoleLog msg k => ConsoleLog msg (bind k f)
  | Uuidv4 k => Uuidv4 (fun x => bind (k x) f)
  | NowISO k => NowISO (fun x => bind (k x) f)
  | Push o k => Push o (bind k f)
  end.

Declare Scope handler_scope.
Delimit Scope handler_scope with handler.
Notation "'let*' x ':=' m 'in' k" := (bind m (fun x => k))
  (at level 10, x name, m at level 100, k at level 200) : handler_scope.

(** What answers the handler: the [n]-th outbound request of the run gets
    [axios_get n], and the run draws one id and reads the clock once. *)
Record Env := mkEnv {
  axios_get : nat -> Request -> Reply;
  uuidv4 : string;
  now : string;
}.

(** The state a run goes through: the [orders] array, the requests sent so
    far and the console. *)
Record World := mkWorld {
  orders : list Order;
  requests : list Request;
  console : list string;
}.

Fixpoint run {A : Type} (env : Env) (h : Handler A) (w : World) : A * World :=
  match h with
  | Ret a => (a, w)
  | Await r k =>
      run env (k (axios_get env (length (requests w)) r))
        (mkWorld (orders w) (requests w ++ [r]) (console w))
  | ConsoleLog msg k =>
      run env k (mkWorld (orders w) (requests w) (console w ++ [msg]))
  | Uuidv4 k => run env (k (uuidv4 env)) w
  | NowISO k => run env (k (now env)) w
  | Push o k =>
      run env k (mkWorld (orders w ++ [o]) (requests w) (console w))
  end.

Section Create.
Local Open Scope handler_scope.

Definition await (r : Request) : Handler Reply := Await r Ret.
Definition log (msg : string) : Handler unit := ConsoleLog msg (Ret tt).

(** The default price of the item loop. *)
Definition defaultPrice : float := 10.99%float.

(** [try { await axios.get(users/userId) } catch { console.log(...) }] *)
Definition verify_user (userId : option string) : Handler unit :=
  let* r := await (GetUser userId) in
  match r with
  | Resolved _ => Ret tt
  | Rejected => log "Warning: Could not verify user existence"
  end.

(** [let bookPrice = 10.99; try { bookPrice = (await axios.get(books/bookId)).data.price } catch { console.log(...) }]:
    reading [price] off a [null] body throws inside the [try]. *)
Definition fetch_price (bookId : option string) : Handler (option float) :=
  let* r := await (GetBook bookId) in
  match r with
  | Resolved (Some book) => Ret (Catalog.price book)
  | Resolved None | Rejected =>
      let* _ := log "Warning: Could not fetch book price, using default" in
      Ret (Some defaultPrice)
  end.

(** [!item.bookId || !item.quantity || item.quantity <= 0] *)
Definition invalid_item (item : Req.Item) : bool :=
  negb (Js.truthy_string (Req.bookId item))
  || negb (Js.truthy_number (Req.quantity item))
  || (Js.ToNumber (Req.quantity item) <=? 0)%float.

(** The [for (const item of items)] loop over what is left of [items],
    with the running [totalAmount] and [orderItems]; [inl] is the
    response of a [return] from inside the loop. *)
Fixpoint price_items (items : list Req.Item) (totalAmount : float)
    (orderItems : list OrderItem)
    : Handler (Response + float * list OrderItem) :=
  match items with
  | [] => Ret (inr (totalAmount, orderItems))
  | item :: rest =>
      if invalid_item item
      then Ret (inl (fail 400 "Each item must have bookId and positive quantity"))
      else
        let* bookPrice := fetch_price (Req.bookId item) in
        let itemTotal := (Js.ToNumber bookPrice * Js.ToNumber (Req.quantity item))%float in
        price_items rest (totalAmount + itemTotal)%float
          (orderItems ++ [mkOrderItem (Req.bookId item) (Req.quantity item) bookPrice])
  end.

(** [router.post("/")].  On values of these types nothing outside the two
    inner [try] blocks throws, so the outer [catch] (500) is never entered. *)
Definition create_order (body : Req.Body) : Handler Response :=
  match Req.items body with
  | None => Ret (fail 400 "UserId and items are required")
  | Some items =>
      if negb (Js.truthy_string (Req.userId body)) || Nat.eqb (length items) 0
      then Ret (fail 400 "UserId and items are required")
      else
        let* _ := verify_user (Req.userId body) in
        let* priced := price_items items 0%float [] in
        match priced with
        | inl response => Ret response
        | inr (totalAmount, orderItems) =>
            Uuidv4 (fun uuid =>
            NowISO (fun date =>
            let newOrder :=
              {| id := uuid;
                 userId := Req.userId body;
                 items := orderItems;
                 totalAmount := Js.parseFloat (Js.toFixed2 totalAmount);
                 status := "pending";
                 createdAt := date |} in
            Push newOrder (Ret (mkResponse 201 (OrderBody newOrder)))))
        end
  end.

End Create.

(** A run of [POST /] on the store [orders]. *)
Definition post_order (env : Env) (orders : list Order) (body : Req.Body)
    : Response * World :=
  run env (create_order body) (mkWorld orders [] []).

(** ** The gateway's health check *)

Module Gateway.

Inductive Service := Books | Users | Orders.

(** The [services] object of the handler. *)
Record Services := mkServices {
  books : string;
  users : string;
  orders : string;
}.

Record Health := mkHealth {
  gateway : string;
  timestamp : string;
  services : Services;
}.

(** The handler as a tree of its effects: loading the HTTP client (which
    throws or not), a probe [axios.get(url/health, { timeout: 2000 })]
    that settles as resolved ([true]) or rejected ([false]: a status
    outside 2xx, a network error, or the 2000 ms elapsed), the console
    and the clock. *)
Inductive Check (A : Type) : Type :=
| Done (a : A)
| RequireAxios (k : bool -> Check A)
| Probe (s : Service) (k : bool -> Check A)
| ConsoleError (msg : string) (k : Check A)
| NowISO (k : string -> Check A).
Arguments Done {A} a.
Arguments RequireAxios {A} k.
Arguments Probe {A} s k.
Arguments ConsoleError {A} msg k.
Arguments NowISO {A} k.

Definition verdict (resolved : bool) : string :=
  if resolved then "healthy" else "unhealthy".

(** [res.json({ gateway: "healthy", timestamp, services })] *)
Definition respond (services : Services) : Check Health :=
  NowISO (fun date => Done (mkHealth "healthy" date services)).

(** [app.get("/health")] *)
Definition health : Check Health :=
  let services := mkServices "unknown" "unknown" "unknown" in
  RequireAxios (fun loaded =>
    if loaded then
      Probe Books (fun ok =>
      let services := mkServices (verdict ok) (users services) (orders services) in
      Probe Users (fun ok =>
      let services := mkServices (books services) (verdict ok) (orders services) in
      Probe Orders (fun ok =>
      let services := mkServices (books services) (users services) (verdict ok) in
      respond services)))
    else
      ConsoleError "Health check error:" (respond services)).

Record Env := mkEnv {
  axios_loads : bool;
  probe : Service -> bool;
  now : string;
}.

(** A run, with the probes that settled and how, in order. *)
Fixpoint run {A : Type} (env : Env) (c : Check A)
    (settled : list (Service * bool)) : A * list (Service * bool) :=
  match c with
  | Done a => (a, settled)
  | RequireAxios k => run env (k (axios_loads env)) settled
  | Probe s k => run env (k (probe env s)) (settled ++ [(s, probe env s)])
  | ConsoleError _ k => run env k settled
  | NowISO k => run env (k (now env)) settled
  end.

(** [GET /health] *)
Definition get_health (env : Env) : Health * list (Service * bool) :=
  run env health [].

(** The entry of a backend in the response. *)
Definition reported (h : Health) (s : Service) : string :=
  match s with
  | Books => books (services h)
  | Users => users (services h)
  | Orders => orders (services h)
  end.

End Gateway.

(** ** The addresses the handlers request *)

(** The argument of each [axios.get] of the creation handler.  Both are
    written between single quotes: they are string literals, not template
    literals, so [${...}] is not replaced and the address is the same for
    every user and every book. *)
Definition url (r : Request) : string :=
  match r with
  | GetUser _ => "${USERS_SERVICE_URL}/api/users/${userId}"
  | GetBook _ => "${BOOKS_SERVICE_URL}/api/books/${item.bookId}"
  end.

(** The argument of each probe of the health check, single-quoted as well. *)
Definition health_url (s : Gateway.Service) : string :=
  match s with
  | Gateway.Books => "${BOOKS_SERVICE_URL}/health"
  | Gateway.Users => "${USERS_SERVICE_URL}/health"
  | Gateway.Orders => "${ORDERS_SERVICE_URL}/health"
  end.

(** The HTTP client.  axios on Node gives the address to [new URL(address)]
    before it sends anything, and rejects the promise when that throws.  The
    URL parser drops leading spaces and control characters and then wants
    the first letter of a scheme: an address that goes on with anything but
    a letter is no URL. *)
Module Axios.

Definition blank (c : ascii) : bool := Nat.leb (nat_of_ascii c) 32.

Definition letter (c : ascii) : bool :=
  let n := nat_of_ascii c in
  (Nat.leb 65 n && Nat.leb n 90) || (Nat.leb 97 n && Nat.leb n 122).

Fixpoint no_scheme (address : string) : bool :=
  match address with
  | EmptyString => true
  | String c rest => if blank c then no_scheme rest else negb (letter c)
  end.

(** How [axios.get(address)] settles when [transport] is what a request
    that is sent would bring back. *)
Definition get {R : Type} (rejected : R) (transport : string -> R)
    (address : string) : R :=
  if no_scheme address then rejected else transport address.

End Axios.

(** The environment of the creation handler as it runs: the [n]-th request
    is answered by the client from the address alone; [transport n] stands
    for the network and the services behind it, and is arbitrary. *)
Definition client (transport : nat -> string -> Reply) (uuid date : string)
    : Env :=
  mkEnv (fun n r => Axios.get Rejected (transport n) (url r)) uuid date.

(** The environment of the health check as it runs: [transport address]
    tells whether a request sent to [address] is answered 2xx within the
    2000 ms. *)
Definition health_client (loads : bool) (transport : string -> bool)
    (date : string) : Gateway.Env :=
  Gateway.mkEnv loads (fun s => Axios.get false transport (health_url s)) date.

(** ** Vocabulary of the statements *)

(** What the catch block of the price lookup leaves in [bookPrice]. *)
Definition settled_price (r : Reply) : option float :=
  match r with
  | Resolved (Some book) => Catalog.price book
  | Resolved None | Rejected => Some defaultPrice
  end.

(** The line the loop pushes for [item] when its lookup is the [n]-th
    request of the run. *)
Definition priced_line (env : Env) (n : nat) (item : Req.Item) : OrderItem :=
  mkOrderItem (Req.bookId item) (Req.quantity item)
    (settled_price (axios_get env n (GetBook (Req.bookId item)))).

Fixpoint priced_lines (env : Env) (n : nat) (items : list Req.Item)
    : list OrderItem :=
  match items with
  | [] => []
  | item :: rest => priced_line env n item :: priced_lines env (S n) rest
  end.

(** [bookPrice * item.quantity] of a line. *)
Definition itemTotal (l : OrderItem) : float :=
  (Js.ToNumber (price l) * Js.ToNumber (quantity l))%float.

(** [totalAmount += itemTotal], line after line. *)
Definition sum_lines (lines : list OrderItem) (start : float) : float :=
  fold_left (fun acc l => (acc + itemTotal l)%float) lines start.

Definition book_requests (items : list Req.Item) : list Request :=
  map (fun item => GetBook (Req.bookId item)) items.

Definition newOrder (env : Env) (body : Req.Body) (items : list Req.Item) : Order :=
  {| id := uuidv4 env;
     userId := Req.userId body;
     items := priced_lines env 1 items;
     totalAmount := Js.parseFloat (Js.toFixed2 (sum_lines (priced_lines env 1 items) 0%float));
     status := "pending";
     createdAt := now env |}.

(** The items the loop gets to price: those before the first one that
    fails its check. *)
Fixpoint looked_up (items : list Req.Item) : list Req.Item :=
  match items with
  | [] => []
  | item :: rest => if invalid_item item then [] else item :: looked_up rest
  end.

(** An item as the specification calls it invalid: no [bookId], or a
    quantity at or below zero. *)
Definition claimed_invalid (item : Req.Item) : Prop :=
  Req.bookId item = None \/
  exists q, Req.quantity item = Some q /\ (q <=? 0)%float = true.

(** The catalog lookups among the requests of a run. *)
Definition is_catalog_lookup (r : Request) : bool :=
  match r with
  | GetBook _ => true
  | GetUser _ => false
  end.

Definition catalog_lookups (rs : list Request) : list Request :=
  filter (fun r => is_catalog_lookup r = true) rs.

(** All-or-nothing validation, as the specification words it, for one run. *)
Definition all_or_nothing (env : Env) (store : list Order) (body : Req.Body) : Prop :=
  let result := post_order env store body in
  statusCode (fst result) = 400 /\
  catalog_lookups (requests (snd result)) = [] /\
  orders (snd result) = store.


(** The environment in which every user lookup settles as [r]; the catalog,
    the id and the clock are those of [env]. *)
Definition with_identity (r : Reply) (env : Env) : Env :=
  mkEnv
    (fun n q =>
       match q with
       | GetUser _ => r
       | GetBook _ => axios_get env n q
       end)
    (uuidv4 env) (now env).

(** What a run answers, stores and requests, without the console. *)
Definition outcome (result : Response * World)
    : Response * list Order * list Request :=
  (fst result, orders (snd result), requests (snd result)).

(** A quantity that is a positive integer. *)
Definition positive_integer (v : option float) : bool :=
  match v with
  | Some q => Js.isInteger q && (1 <=? q)%float
  | None => false
  end.

(** An order matches a filter when it agrees with every field the filter
    gives. *)
Definition matches (query : Query.t) (o : Order) : Prop :=
  match Query.userId query with
  | Some u => userId o = Some u
  | None => True
  end /\
  match Query.status query with
  | Some s => status o = s
  | None => True
  end.

#[local] Instance matches_dec query o : Decision (matches query o).
Proof.
  unfold matches.
  destruct (Query.userId query), (Query.status query); apply _.
Defined.

(** The filter the handler applies: a field given as the empty string is
    treated as not given. *)
Definition given (v : option string) : option string :=
  if Js.truthy_string v then v else None.

Definition applied (query : Query.t) : Query.t :=
  Query.mk (given (Query.userId query)) (given (Query.status query)).

(** ** The order store over time *)

(** One request to the orders router that can touch the [orders] array:
    creation, a status update or a cancel, with any input and any
    environment.  Listing and reading leave the array alone. *)
Inductive OrderStep : list Order -> list Order -> Prop :=
| StepCreate env body store :
    OrderStep store (orders (snd (post_order env store body)))
| StepPatch rid st store :
    OrderStep store (snd (patch_status store rid st))
| StepCancel rid store :
    OrderStep store (snd (cancel_order store rid)).

(** The same, when every creation draws an id that no stored order has. *)
Inductive FreshStep : list Order -> list Order -> Prop :=
| FreshCreate env body store :
    (forall o, o ∈ store -> id o <> uuidv4 env) ->
    FreshStep store (orders (snd (post_order env store body)))
| FreshPatch rid st store :
    FreshStep store (snd (patch_status store rid st))
| FreshCancel rid store :
    FreshStep store (snd (cancel_order store rid)).

(** The stores the service can be in: those reached from the seeded array. *)
Definition reachable (store : list Order) : Prop :=
  exists uuid now, rtc OrderStep (seed uuid now) store.

Definition recognized (o : Order) : Prop := status o ∈ validStatuses.

Definition well_formed_line (l : OrderItem) : Prop :=
  Js.truthy_string (bookId l) = true /\
  exists q, quantity l = Some q /\ (0 <? q)%float = true.

Definition well_formed (o : Order) : Prop :=
  Js.truthy_string (userId o) = true /\
  items o <> [] /\
  Forall well_formed_line (items o).

(** The total is the rounded sum over the lines the order holds. *)
Definition total_consistent (o : Order) : Prop :=
  totalAmount o = Js.parseFloat (Js.toFixed2 (sum_lines (items o) 0%float)).

(** ** Users and books: records kept as objects *)

(** The records of the users and books routers are plain objects whose
    properties hold JSON primitives; nested objects and arrays are outside
    the model.  An object is a finite map from property names, and a
    property that is not there reads as [undefined] ([None]). *)
Module Rest.

Inductive Value :=
| VNull
| VBool (b : bool)
| VNumber (x : float)
| VString (s : string).

Abbreviation Obj := (gmap string Value).

(** [!!v] *)
Definition truthy (v : option Value) : bool :=
  match v with
  | Some (VBool b) => b
  | Some (VNumber x) => negb (is_zero x || is_nan x)
  | Some (VString s) => negb (String.eqb s "")
  | Some VNull | None => false
  end.

(** [a === b] *)
Definition strict_eq (a b : option Value) : bool :=
  match a, b with
  | None, None => true
  | Some VNull, Some VNull => true
  | Some (VBool x), Some (VBool y) => Bool.eqb x y
  | Some (VNumber x), Some (VNumber y) => (x =? y)%float
  | Some (VString x), Some (VString y) => String.eqb x y
  | _, _ => false
  end.

(** [v || d] *)
Definition or_else (v : option Value) (d : Value) : Value :=
  match v with
  | Some x => if truthy (Some x) then x else d
  | None => d
  end.

(** A property [k: v] of an object literal; one whose value is [undefined]
    is left out, as it is from the JSON that is sent. *)
Definition prop (k : string) (v : option Value) (o : Obj) : Obj :=
  match v with
  | Some x => <[k := x]> o
  | None => o
  end.

Inductive Payload :=
| Error (error : string) (code : nat)
| Object (o : Obj)
| Objects (l : list Obj)
| Message (message : string).

Record Resp := mkResp {
  status : nat;
  payload : Payload;
}.

(** [res.status(c).json({ error, code: c })] *)
Definition fail (c : nat) (error : string) : Resp := mkResp c (Error error c).

(** [res.json(p)] *)
Definition json (p : Payload) : Resp := mkResp 200 p.

(** The three handlers that the users router and the books router share
    word for word, up to the name of the array and the two messages. *)
Section Resource.
Variable notFound : string.
Variable deleted : string.

(** [records.findIndex((r) => r.id === req.params.id)], with the record
    found. *)
Definition findIndex (records : list Obj) (rid : string) : option (nat * Obj) :=
  list_find (fun r => strict_eq (r !! "id") (Some (VString rid)) = true) records.

(** [router.get("/:id")] *)
Definition get_by_id (records : list Obj) (rid : string) : Resp :=
  match findIndex records rid with
  | None => fail 404 notFound
  | Some (_, record) => json (Object record)
  end.

(** [router.put("/:id")]:
    [{ ...records[index], ...req.body, id: req.params.id }]. *)
Definition put (records : list Obj) (rid : string) (body : Obj)
    : Resp * list Obj :=
  match findIndex records rid with
  | None => (fail 404 notFound, records)
  | Some (index, old) =>
      let updated := <["id" := VString rid]> (body ∪ old) in
      (json (Object updated), <[index := updated]> records)
  end.

(** [router.delete("/:id")]: [records.splice(index, 1)]. *)
Definition remove (records : list Obj) (rid : string) : Resp * list Obj :=
  match findIndex records rid with
  | None => (fail 404 notFound, records)
  | Some (index, _) => (json (Message deleted), delete index records)
  end.

End Resource.

End Rest.

(** The users router. *)
Module Users.

(** [router.get("/")] *)
Definition list_users (users : list Rest.Obj) : Rest.Resp :=
  Rest.json (Rest.Objects users).

Definition get_user := Rest.get_by_id "User not found".
Definition delete_user := Rest.remove "User not found" "User deleted successfully".

(** [router.post("/")], with the id that [uuidv4()] draws. *)
Definition post_user (uuid : string) (users : list Rest.Obj) (body : Rest.Obj)
    : Rest.Resp * list Rest.Obj :=
  let name := body !! "name" in
  let email := body !! "email" in
  let address := body !! "address" in
  let phone := body !! "phone" in
  if negb (Rest.truthy name) || negb (Rest.truthy email)
  then (Rest.fail 400 "Name and email are required", users)
  else
    match list_find (fun u => Rest.strict_eq (u !! "email") email = true) users with
    | Some _ => (Rest.fail 400 "Email already exists", users)
    | None =>
        let newUser :=
          Rest.prop "id" (Some (Rest.VString uuid))
            (Rest.prop "name" name
               (Rest.prop "email" email
                  (Rest.prop "address" (Some (Rest.or_else address (Rest.VString "")))
                     (Rest.prop "phone" (Some (Rest.or_else phone (Rest.VString "")))
                        ∅)))) in
        (Rest.mkResp 201 (Rest.Object newUser), users ++ [newUser])
    end.

End Users.

(** The books router, as far as it is the same as the users router. *)
Module Books.

Definition get_book := Rest.get_by_id "Book not found".
Definition delete_book := Rest.remove "Book not found" "Book deleted successfully".

End Books.

(** The users no two of which have the same ([===]) email. *)
Definition distinct_emails (users : list Rest.Obj) : Prop :=
  forall i j u v,
    users !! i = Some u -> users !! j = Some v -> i <> j ->
    Rest.strict_eq (u !! "email") (v !! "email") = false.

(** The [id] properties of the records, in the order of the array. *)
Definition ids (records : list Rest.Obj) : list (option Rest.Value) :=
  (fun r : Rest.Obj => r !! "id") <$> records.

(** * Properties *)

(** ** Rounding to two decimals, on a few values *)

Example toFixed_example :
  Js.parseFloat (Js.toFixed2 (0 + 12.99 * 2)%float) = 25.98%float.
Proof. vm_compute. reflexivity. Qed.

(** The seeded order: 12.99 * 2 + 14.99 * 1. *)
Example toFixed_seed :
  Js.parseFloat (Js.toFixed2 (0 + 12.99 * 2 + 14.99 * 1)%float) = 40.97%float.
Proof. vm_compute. reflexivity. Qed.

(** A tie goes up: 0.125 is a binary64 value. *)
Example toFixed_tie :
  Js.toFixed2 0.125%float = Js.StrFixed false 13 /\
  Js.toFixed2 (-0.125)%float = Js.StrFixed true 13.
Proof. split; vm_compute; reflexivity. Qed.

(** 1.005 is not a binary64 value: the one nearest to it lies below, and
    rounds down. *)
Example toFixed_below_tie :
  Js.parseFloat (Js.toFixed2 1.005%float) = 1%float.
Proof. vm_compute. reflexivity. Qed.

(** The total is rounded from the binary64 sum, not from the decimal one:
    33.963 * 5 is 169.81499999999997 in binary64, and rounds down. *)
Example toFixed_of_product :
  Js.parseFloat (Js.toFixed2 (0 + 33.963 * 5)%float) = 169.81%float.
Proof. vm_compute. reflexivity. Qed.

Example toFixed_not_finite :
  Js.toFixed2 nan = Js.StrNaN /\
  Js.parseFloat (Js.toFixed2 (Js.ToNumber None * 2)%float) = nan /\
  Js.parseFloat (Js.toFixed2 1e21%float) = 1e21%float.
Proof. repeat split; vm_compute; reflexivity. Qed.

(** ** Running the effects *)

Lemma run_bind {A B : Type} env (m : Handler A) (f : A -> Handler B) w :
  run env (bind m f) w = let '(a, w') := run env m w in run env (f a) w'.
Proof.
  revert w. induction m as [a | r k IH | msg k IH | k IH | k IH | o k IH];
    intros w; simpl; auto.
Qed.

Lemma run_fetch_price env b w :
  exists c,
    run env (fetch_price b) w =
      (settled_price (axios_get env (length (requests w)) (GetBook b)),
       mkWorld (orders w) (requests w ++ [GetBook b]) c).
Proof.
  unfold fetch_price, await. simpl.
  destruct (axios_get env (length (requests w)) (GetBook b)) as [|[book|]];
    simpl; eauto.
Qed.

Lemma run_verify_user env u w :
  exists c,
    run env (verify_user u) w =
      (tt, mkWorld (orders w) (requests w ++ [GetUser u]) c).
Proof.
  unfold verify_user, await. simpl.
  destruct (axios_get env (length (requests w)) (GetUser u)); simpl; eauto.
Qed.

Lemma price_items_cons item rest total acc :
  price_items (item :: rest) total acc =
    if invalid_item item
    then Ret (inl (fail 400 "Each item must have bookId and positive quantity"))
    else
      bind (fetch_price (Req.bookId item)) (fun bookPrice =>
        price_items rest
          (total + Js.ToNumber bookPrice * Js.ToNumber (Req.quantity item))%float
          (acc ++ [mkOrderItem (Req.bookId item) (Req.quantity item) bookPrice])).
Proof. reflexivity. Qed.

Lemma run_price_items_valid env items : forall total acc w,
  Forall (fun item => invalid_item item = false) items ->
  exists c,
    run env (price_items items total acc) w =
      (inr (sum_lines (priced_lines env (length (requests w)) items) total,
            acc ++ priced_lines env (length (requests w)) items),
       mkWorld (orders w) (requests w ++ book_requests items) c).
Proof.
  induction items as [|item rest IH]; intros total acc w Hvalid.
  - simpl. exists (console w). rewrite !app_nil_r. by destruct w.
  - inversion Hvalid as [|? ? Hitem Hrest]; subst.
    rewrite price_items_cons, Hitem, run_bind.
    destruct (run_fetch_price env (Req.bookId item) w) as [c1 ->].
    destruct (IH (total + itemTotal (priced_line env (length (requests w)) item))%float
                 (acc ++ [priced_line env (length (requests w)) item])
                 (mkWorld (orders w) (requests w ++ [GetBook (Req.bookId item)]) c1)
                 Hrest) as [c2 E].
    exists c2. etransitivity; [exact E |]. cbn [requests orders].
    rewrite length_app. cbn [length]. rewrite Nat.add_1_r.
    cbn [priced_lines sum_lines fold_left book_requests map].
    rewrite <- !app_assoc. reflexivity.
Qed.

(** A [return] from inside the loop: the items before the first invalid
    one are looked up, nothing after it is. *)
Lemma run_price_items_invalid env pre bad post : forall total acc w,
  Forall (fun item => invalid_item item = false) pre ->
  invalid_item bad = true ->
  exists c,
    run env (price_items (pre ++ bad :: post) total acc) w =
      (inl (fail 400 "Each item must have bookId and positive quantity"),
       mkWorld (orders w) (requests w ++ book_requests pre) c).
Proof.
  induction pre as [|item rest IH]; intros total acc w Hvalid Hbad.
  - simpl. rewrite Hbad. exists (console w). rewrite app_nil_r. by destruct w.
  - inversion Hvalid as [|? ? Hitem Hrest]; subst.
    simpl app. rewrite price_items_cons, Hitem, run_bind.
    destruct (run_fetch_price env (Req.bookId item) w) as [c1 ->].
    edestruct IH as [c2 E]; [exact Hrest | exact Hbad |].
    exists c2. etransitivity; [exact E |]. cbn [requests orders book_requests map].
    rewrite <- app_assoc. reflexivity.
Qed.

(** Either every item passes the check of the loop, or there is a first
    one that does not. *)
Lemma first_invalid (items : list Req.Item) :
  Forall (fun item => invalid_item item = false) items \/
  exists pre bad post,
    items = pre ++ bad :: post /\
    Forall (fun item => invalid_item item = false) pre /\
    invalid_item bad = true.
Proof.
  induction items as [|item rest IH].
  - left. constructor.
  - destruct (invalid_item item) eqn:E.
    + right. exists [], item, rest. repeat split; auto.
    + destruct IH as [IH | (pre & bad & post & -> & Hpre & Hbad)].
      * left. by constructor.
      * right. exists (item :: pre), bad, post. repeat split; auto.
Qed.

(** ** The check of the item loop, in terms of the values it accepts *)

Lemma Prim2SF_zero : Prim2SF 0%float = S754_zero false.
Proof. reflexivity. Qed.

Lemma SFcompare_refl_finite s m e :
  SFcompare (S754_finite s m e) (S754_finite s m e) = Some Eq.
Proof.
  simpl. rewrite Z.compare_refl, Pos.compare_cont_refl. by destruct s.
Qed.

(** A number passes [!q || q <= 0] exactly when it is above zero. *)
Lemma positive_number q :
  (0 <? q)%float = true <->
  Js.truthy_number (Some q) = true /\ (q <=? 0)%float = false.
Proof.
  unfold Js.truthy_number, is_zero, is_nan.
  rewrite FloatAxioms.ltb_spec, FloatAxioms.leb_spec, !FloatAxioms.eqb_spec, Prim2SF_zero.
  unfold SFltb, SFleb, SFeqb.
  destruct (Prim2SF q) as [[]|[]| |[] m e] eqn:E;
    try rewrite SFcompare_refl_finite; simpl; intuition congruence.
Qed.

Lemma valid_item_iff item :
  invalid_item item = false <->
  Js.truthy_string (Req.bookId item) = true /\
  exists q, Req.quantity item = Some q /\ (0 <? q)%float = true.
Proof.
  unfold invalid_item. rewrite !orb_false_iff, !negb_false_iff. split.
  - intros [[Hb Hq] Hle]. split; [exact Hb |].
    destruct (Req.quantity item) as [q|]; [| discriminate].
    exists q. split; [reflexivity |]. by apply positive_number.
  - intros [Hb (q & -> & Hpos)]. apply positive_number in Hpos as [Hq Hle].
    auto.
Qed.

(** ** Runs of the creation handler *)

Lemma post_order_valid env store body items :
  Req.items body = Some items ->
  Js.truthy_string (Req.userId body) = true ->
  items <> [] ->
  Forall (fun item => invalid_item item = false) items ->
  exists c,
    post_order env store body =
      (mkResponse 201 (OrderBody (newOrder env body items)),
       mkWorld (store ++ [newOrder env body items])
         (GetUser (Req.userId body) :: book_requests items) c).
Proof.
  intros Hitems Hu Hne Hvalid. unfold post_order, create_order.
  rewrite Hitems, Hu. destruct items as [|item rest]; [done |].
  cbn [length Nat.eqb negb orb]. rewrite run_bind.
  destruct (run_verify_user env (Req.userId body) (mkWorld store [] [])) as [c1 ->].
  rewrite run_bind.
  edestruct (run_price_items_valid env (item :: rest)) as [c2 ->]; [exact Hvalid |].
  exists c2. reflexivity.
Qed.

Lemma post_order_invalid_item env store body pre bad post :
  Req.items body = Some (pre ++ bad :: post) ->
  Forall (fun item => invalid_item item = false) pre ->
  invalid_item bad = true ->
  exists c,
    post_order env store body =
      if Js.truthy_string (Req.userId body)
      then (fail 400 "Each item must have bookId and positive quantity",
            mkWorld store (GetUser (Req.userId body) :: book_requests pre) c)
      else (fail 400 "UserId and items are required", mkWorld store [] c).
Proof.
  intros Hitems Hpre Hbad. unfold post_order, create_order. rewrite Hitems.
  destruct (Js.truthy_string (Req.userId body)); [| simpl; eauto].
  replace (Nat.eqb (length (pre ++ bad :: post)) 0) with false
    by (by destruct pre).
  cbn [negb orb]. rewrite run_bind.
  destruct (run_verify_user env (Req.userId body) (mkWorld store [] [])) as [c1 ->].
  rewrite run_bind.
  edestruct (run_price_items_invalid env pre bad post) as [c2 ->];
    [exact Hpre | exact Hbad |].
  eauto.
Qed.

(** Every run ends in a 201 that appends one order, or in a 400 that
    leaves the store as it was. *)
Lemma post_order_cases env store body :
  (exists items c,
      Req.items body = Some items /\
      Forall (fun item => invalid_item item = false) items /\
      post_order env store body =
        (mkResponse 201 (OrderBody (newOrder env body items)),
         mkWorld (store ++ [newOrder env body items])
           (GetUser (Req.userId body) :: book_requests items) c)) \/
  (exists msg rs c,
      post_order env store body = (fail 400 msg, mkWorld store rs c)).
Proof.
  destruct (Req.items body) as [items|] eqn:Hitems;
    [| right; unfold post_order, create_order; rewrite Hitems; simpl; eauto].
  destruct (first_invalid items) as [Hvalid | (pre & bad & post & -> & Hpre & Hbad)].
  - destruct (Js.truthy_string (Req.userId body)) eqn:Hu;
      [| right; unfold post_order, create_order; rewrite Hitems, Hu; simpl; eauto].
    destruct items as [|item rest];
      [right; unfold post_order, create_order; rewrite Hitems, Hu; simpl; eauto |].
    left. destruct (post_order_valid env store body (item :: rest)) as [c E];
      [exact Hitems | exact Hu | discriminate | exact Hvalid |].
    exists (item :: rest), c. auto.
  - right.
    destruct (post_order_invalid_item env store body pre bad post)
      as (c & E); [exact Hitems | exact Hpre | exact Hbad |].
    rewrite E. destruct (Js.truthy_string (Req.userId body)); eauto.
Qed.

(** ** Creation as it runs: the catalog is not reached *)

(** Both addresses of the creation handler begin with [$]: the client
    rejects them, whatever the network and the services would answer. *)
Lemma client_rejects transport uuid date n r :
  axios_get (client transport uuid date) n r = Rejected.
Proof. by destruct r. Qed.

(** C1, on the code. The example of the specification,
    [create("u1", [{bookId: "b1", quantity: 2}])], whatever the catalog
    holds for [b1] and whatever the network would bring back: the handler
    asks for the price at the literal address
    [${BOOKS_SERVICE_URL}/api/books/${item.bookId}], which names neither the
    catalog nor the book and which the client rejects, so the order is
    created (201, appended, [pending]) with the single line at the default
    price 10.99 and the total 21.98, where the claim has 12.99 and 25.98. *)
Theorem create_order_misses_catalog transport uuid date store :
  let body :=
    Req.mkBody (Some "u1") (Some [Req.mkItem (Some "b1") (Some 2%float)]) in
  let created :=
    {| id := uuid;
       userId := Some "u1";
       items := [mkOrderItem (Some "b1") (Some 2%float) (Some 10.99%float)];
       totalAmount := 21.98%float;
       status := "pending";
       createdAt := date |} in
  let result := post_order (client transport uuid date) store body in
  fst result = mkResponse 201 (OrderBody created) /\
  orders (snd result) = store ++ [created] /\
  requests (snd result) = [GetUser (Some "u1"); GetBook (Some "b1")] /\
  url <$> requests (snd result) =
    ["${USERS_SERVICE_URL}/api/users/${userId}";
     "${BOOKS_SERVICE_URL}/api/books/${item.bookId}"].
Proof.
  intros body created result.
  destruct (post_order_valid (client transport uuid date) store body
              [Req.mkItem (Some "b1") (Some 2%float)]) as [c E].
  - reflexivity.
  - reflexivity.
  - discriminate.
  - repeat constructor.
  - assert (newOrder (client transport uuid date) body
              [Req.mkItem (Some "b1") (Some 2%float)] = created) as Hnew.
    { unfold newOrder, created, priced_lines, priced_line.
      rewrite client_rejects. vm_compute. reflexivity. }
    subst result. rewrite E, Hnew. repeat split.
Qed.

(** ** Creation with an invalid item *)

Lemma claimed_invalid_rejected item :
  claimed_invalid item -> invalid_item item = true.
Proof.
  unfold invalid_item. intros [Hb | (q & Hq & Hle)].
  - by rewrite Hb.
  - rewrite Hq. simpl. rewrite Hle. by rewrite !orb_true_r.
Qed.

(** C2, as stated, fails: with a valid first item and an invalid second
    one, the price of the first is looked up before the request is
    refused. *)
Lemma lookup_before_invalid_item :
  let env := mkEnv (fun _ _ => Rejected) "0b7a" "2024-01-01T00:00:00.000Z" in
  let items := [Req.mkItem (Some "b1") (Some 1%float);
                Req.mkItem (Some "b2") (Some 0%float)] in
  Exists claimed_invalid items /\
  catalog_lookups
    (requests (snd (post_order env [] (Req.mkBody (Some "u1") (Some items)))))
    = [GetBook (Some "b1")] /\
  ~ all_or_nothing env [] (Req.mkBody (Some "u1") (Some items)).
Proof.
  intros env items. split; [| split].
  - apply Exists_cons_tl, Exists_cons_hd. right. by exists 0%float.
  - reflexivity.
  - intros (_ & H & _). discriminate H.
Qed.

(** C2, amended. A request with an item that fails the check of the loop (no
    or empty [bookId]; no, zero, [NaN] or non-positive [quantity]) is
    answered 400 and the store is left as it was; the requests sent before
    that are the user lookup and the catalog lookups of the items that come
    before the first such item, in order, and no other. *)
Theorem create_order_invalid_item env store body reqItems :
  Req.items body = Some reqItems ->
  Exists (fun item => invalid_item item = true) reqItems ->
  exists pre bad post,
    reqItems = pre ++ bad :: post /\
    Forall (fun item => invalid_item item = false) pre /\
    invalid_item bad = true /\
    let result := post_order env store body in
    statusCode (fst result) = 400 /\
    orders (snd result) = store /\
    requests (snd result) =
      if Js.truthy_string (Req.userId body)
      then GetUser (Req.userId body) :: book_requests pre
      else [].
Proof.
  intros Hitems Hex.
  destruct (first_invalid reqItems) as [Hvalid | (pre & bad & post & -> & Hpre & Hbad)].
  - exfalso. apply Exists_exists in Hex as (item & Hin & Hinv).
    rewrite Forall_forall in Hvalid. specialize (Hvalid item Hin). congruence.
  - exists pre, bad, post. repeat split; try assumption;
      destruct (post_order_invalid_item env store body pre bad post) as [c E];
      try assumption; rewrite E;
      by destruct (Js.truthy_string (Req.userId body)).
Qed.

Lemma create_order_invalid_item_example :
  let env := mkEnv (fun _ _ => Rejected) "0b7a" "2024-01-01T00:00:00.000Z" in
  let body :=
    Req.mkBody (Some "u1")
      (Some [Req.mkItem (Some "b1") (Some 1%float);
             Req.mkItem (Some "b2") (Some 0%float);
             Req.mkItem (Some "b3") (Some 4%float)]) in
  statusCode (fst (post_order env [] body)) = 400 /\
  orders (snd (post_order env [] body)) = [] /\
  requests (snd (post_order env [] body)) =
    [GetUser (Some "u1"); GetBook (Some "b1")].
Proof.
  intros env body.
  destruct (create_order_invalid_item env [] body
              [Req.mkItem (Some "b1") (Some 1%float);
               Req.mkItem (Some "b2") (Some 0%float);
               Req.mkItem (Some "b3") (Some 4%float)])
    as (pre & bad & post & _ & _ & _ & H).
  - reflexivity.
  - apply Exists_cons_tl, Exists_cons_hd. reflexivity.
  - destruct H as (H1 & H2 & _).
    split; [exact H1 | split; [exact H2 | reflexivity]].
Defined.

(** ** Creation with a failing catalog *)


Lemma length_priced_lines env (reqItems : list Req.Item) : forall n,
  length (priced_lines env n reqItems) = length reqItems.
Proof. induction reqItems as [|item rest IH]; intros n; simpl; auto. Qed.




(** ** Creation and the identity service *)

Lemma priced_lines_with_identity r env (reqItems : list Req.Item) : forall n,
  priced_lines (with_identity r env) n reqItems = priced_lines env n reqItems.
Proof. induction reqItems as [|item rest IH]; intros n; simpl; by rewrite ?IH. Qed.

Lemma newOrder_with_identity r env body reqItems :
  newOrder (with_identity r env) body reqItems = newOrder env body reqItems.
Proof. unfold newOrder. by rewrite priced_lines_with_identity. Qed.

Lemma outcome_with_identity r env store body :
  outcome (post_order (with_identity r env) store body) =
  outcome (post_order env store body).
Proof.
  destruct (Req.items body) as [reqItems|] eqn:Hitems;
    [| unfold post_order, create_order; by rewrite Hitems].
  destruct (first_invalid reqItems) as [Hvalid | (pre & bad & post & -> & Hpre & Hbad)].
  - destruct (Js.truthy_string (Req.userId body)) eqn:Hu;
      [| unfold post_order, create_order; by rewrite Hitems, Hu].
    destruct reqItems as [|item rest];
      [unfold post_order, create_order; by rewrite Hitems, Hu |].
    destruct (post_order_valid (with_identity r env) store body (item :: rest))
      as [c1 ->]; [exact Hitems | exact Hu | discriminate | exact Hvalid |].
    destruct (post_order_valid env store body (item :: rest))
      as [c2 ->]; [exact Hitems | exact Hu | discriminate | exact Hvalid |].
    unfold outcome. cbn [fst snd orders requests].
    by rewrite newOrder_with_identity.
  - destruct (post_order_invalid_item (with_identity r env) store body pre bad post)
      as [c1 ->]; [exact Hitems | exact Hpre | exact Hbad |].
    destruct (post_order_invalid_item env store body pre bad post)
      as [c2 ->]; [exact Hitems | exact Hpre | exact Hbad |].
    by destruct (Js.truthy_string (Req.userId body)).
Qed.

(** C5. Whatever the identity service answers, and whether its lookup
    resolves or is rejected, a creation request gets the same response (the
    same order: id, lines, prices, [totalAmount], status, or the same
    refusal), leaves the same store and sends the same requests. *)
Theorem identity_lookup_irrelevant env store body (r1 r2 : Reply) :
  fst (post_order (with_identity r1 env) store body) =
    fst (post_order (with_identity r2 env) store body) /\
  orders (snd (post_order (with_identity r1 env) store body)) =
    orders (snd (post_order (with_identity r2 env) store body)) /\
  requests (snd (post_order (with_identity r1 env) store body)) =
    requests (snd (post_order (with_identity r2 env) store body)).
Proof.
  pose proof (outcome_with_identity r1 env store body) as H1.
  pose proof (outcome_with_identity r2 env store body) as H2.
  rewrite <- H2 in H1. unfold outcome in H1. by inversion H1.
Qed.

(** ** The quantities creation stores *)

(** C6, as stated, fails: a quantity of 1.5 passes the check of the loop,
    and the line is stored with it. *)
Lemma fractional_quantity_stored :
  let env := mkEnv (fun _ _ => Rejected) "0b7a" "2024-01-01T00:00:00.000Z" in
  let body := Req.mkBody (Some "u1") (Some [Req.mkItem (Some "b1") (Some 1.5%float)]) in
  exists created line,
    post_order env [] body =
      (mkResponse 201 (OrderBody created),
       mkWorld [created] [GetUser (Some "u1"); GetBook (Some "b1")]
         ["Warning: Could not verify user existence";
          "Warning: Could not fetch book price, using default"]) /\
    items created = [line] /\
    quantity line = Some 1.5%float /\
    positive_integer (quantity line) = false.
Proof.
  intros env body. do 2 eexists.
  split; [reflexivity |]. split; [reflexivity |]. split; reflexivity.
Qed.

Lemma priced_lines_quantity env (reqItems : list Req.Item) : forall n line,
  line ∈ priced_lines env n reqItems ->
  exists item, item ∈ reqItems /\ quantity line = Req.quantity item.
Proof.
  induction reqItems as [|item rest IH]; intros n line Hin; simpl in Hin.
  - by apply elem_of_nil in Hin.
  - apply elem_of_cons in Hin as [-> | Hin].
    + exists item. split; [apply list_elem_of_here | reflexivity].
    + destruct (IH _ _ Hin) as (item' & Hin' & Hq).
      exists item'. split; [by apply list_elem_of_further | exact Hq].
Qed.

(** C6, amended. Every line of an order that creation stores has a
    quantity that is a number above zero, and a request with an item whose
    quantity is absent or is not a number above zero is refused with 400,
    the store left as it was. *)
Theorem stored_quantity_positive env store body :
  let result := post_order env store body in
  (forall created line,
     fst result = mkResponse 201 (OrderBody created) ->
     line ∈ items created ->
     orders (snd result) = store ++ [created] /\
     exists q, quantity line = Some q /\ (0 <? q)%float = true) /\
  (forall reqItems item,
     Req.items body = Some reqItems ->
     item ∈ reqItems ->
     (forall q, Req.quantity item = Some q -> (0 <? q)%float = false) ->
     (exists msg, fst result = fail 400 msg) /\ orders (snd result) = store).
Proof.
  intros result. subst result. split.
  - intros created line Hresp Hline.
    destruct (post_order_cases env store body)
      as [(reqItems & c & Hitems & Hvalid & E) | (msg & rs & c & E)];
      rewrite E in *; cbn [fst snd orders] in *; [| discriminate Hresp].
    injection Hresp as <-. split; [reflexivity |].
    cbn [newOrder items] in Hline.
    apply priced_lines_quantity in Hline as (item & Hin & ->).
    rewrite Forall_forall in Hvalid.
    specialize (Hvalid item Hin).
    apply valid_item_iff in Hvalid as [_ Hq]. exact Hq.
  - intros reqItems item Hitems Hin Hq.
    destruct (post_order_cases env store body)
      as [(reqItems' & c & Hitems' & Hvalid & E) | (msg & rs & c & E)];
      rewrite E; cbn [fst snd orders]; [| eauto].
    exfalso. rewrite Hitems in Hitems'. injection Hitems' as <-.
    rewrite Forall_forall in Hvalid.
    specialize (Hvalid item Hin).
    apply valid_item_iff in Hvalid as [_ (q & Hsome & Hpos)].
    specialize (Hq q Hsome). congruence.
Qed.

Lemma stored_quantity_positive_example :
  let env := mkEnv (fun _ _ => Rejected) "0b7a" "2024-01-01T00:00:00.000Z" in
  let line := mkOrderItem (Some "b1") (Some 2%float) (Some 10.99%float) in
  let created :=
    mkOrder "0b7a" (Some "u1") [line] 21.98%float "pending" "2024-01-01T00:00:00.000Z" in
  let accepted := Req.mkBody (Some "u1") (Some [Req.mkItem (Some "b1") (Some 2%float)]) in
  let refused := Req.mkBody (Some "u1") (Some [Req.mkItem (Some "b1") (Some (-3)%float)]) in
  (orders (snd (post_order env [] accepted)) = [created] /\
   exists q, quantity line = Some q /\ (0 <? q)%float = true) /\
  (exists msg, fst (post_order env [] refused) = fail 400 msg) /\
  orders (snd (post_order env [] refused)) = [].
Proof.
  intros env line created accepted refused. split.
  - apply (proj1 (stored_quantity_positive env [] accepted) created line).
    + vm_compute. reflexivity.
    + apply list_elem_of_here.
  - apply (proj2 (stored_quantity_positive env [] refused)
             [Req.mkItem (Some "b1") (Some (-3)%float)]
             (Req.mkItem (Some "b1") (Some (-3)%float))).
    + reflexivity.
    + apply list_elem_of_here.
    + intros q H. injection H as <-. reflexivity.
Defined.

(** ** The order store *)

Lemma includes_elem_of (l : list string) s : includes l s = true <-> s ∈ l.
Proof.
  unfold includes. rewrite existsb_exists. split.
  - intros (x & Hin & Heq). apply String.eqb_eq in Heq as ->.
    by apply list_elem_of_In.
  - intros Hin. exists s. split; [by apply list_elem_of_In | apply String.eqb_refl].
Qed.

Lemma valid_status_truthy s :
  s ∈ validStatuses -> Js.truthy_string (Some s) = true.
Proof.
  unfold validStatuses. rewrite !elem_of_cons, elem_of_nil.
  intros [-> | [-> | [-> | [-> | [-> | []]]]]]; reflexivity.
Qed.

Lemma findIndex_absent store rid :
  (forall o, o ∈ store -> id o <> rid) -> findIndex store rid = None.
Proof.
  intros H. unfold findIndex. apply list_find_None, Forall_forall. exact H.
Qed.

Lemma findIndex_present store rid o :
  o ∈ store -> id o = rid ->
  exists i first,
    findIndex store rid = Some (i, first) /\
    store !! i = Some first /\ id first = rid.
Proof.
  intros Hin Hid. unfold findIndex.
  destruct (list_find_elem_of (fun o => id o = rid) store o Hin Hid)
    as [[i first] E].
  exists i, first. split; [exact E |].
  apply list_find_Some in E as (Hi & Hfirst & _). auto.
Qed.

(** An update that keeps the ids keeps every order where [findIndex] finds
    it. *)
Lemma findIndex_alter store rid i o f :
  (forall x, id (f x) = id x) ->
  findIndex store rid = Some (i, o) ->
  findIndex (alter f i store) rid = Some (i, f o).
Proof.
  unfold findIndex. intros Hid E.
  apply list_find_Some in E as (Hi & Ho & Hbefore).
  apply list_find_Some. split; [| split].
  - by rewrite list_lookup_alter_eq, Hi.
  - by rewrite Hid.
  - intros j y Hj Hlt. rewrite list_lookup_alter_ne in Hj by lia.
    by apply (Hbefore j).
Qed.

(** C7. A status update whose status is absent or is not one of the five
    recognized values is refused with 400, whatever the order id, and the
    store is left as it was; with a recognized status and an id that no
    order has, it is refused with 404, the store again left as it was. *)
Theorem patch_status_refused store rid (st : option string) :
  ((forall s, st = Some s -> s ∉ validStatuses) ->
   patch_status store rid st = (fail 400 "Valid status is required", store)) /\
  (forall s, st = Some s -> s ∈ validStatuses ->
   (forall o, o ∈ store -> id o <> rid) ->
   patch_status store rid st = (fail 404 "Order not found", store)).
Proof.
  split.
  - intros Hbad. destruct st as [s|]; [| reflexivity].
    unfold patch_status.
    destruct (includes validStatuses s) eqn:E.
    + apply includes_elem_of in E. by destruct (Hbad s eq_refl).
    + by rewrite orb_true_r.
  - intros s -> Hs Habsent. unfold patch_status.
    rewrite (valid_status_truthy s Hs), (proj2 (includes_elem_of _ _) Hs).
    cbn [negb orb]. by rewrite (findIndex_absent store rid Habsent).
Qed.

Lemma patch_status_refused_example :
  let store := seed "o-1" "2024-01-01T00:00:00.000Z" in
  patch_status store "o-1" (Some "bogus") =
    (fail 400 "Valid status is required", store) /\
  patch_status store "o-2" (Some "shipped") =
    (fail 404 "Order not found", store).
Proof.
  intros store. split.
  - apply (proj1 (patch_status_refused store "o-1" (Some "bogus"))).
    intros s H. injection H as <-. unfold validStatuses.
    rewrite !elem_of_cons, elem_of_nil. intros [H | [H | [H | [H | [H | []]]]]];
      discriminate H.
  - apply (proj2 (patch_status_refused store "o-2" (Some "shipped")) "shipped").
    + reflexivity.
    + unfold validStatuses. rewrite !elem_of_cons. auto.
    + intros o Ho. apply list_elem_of_singleton in Ho as ->. discriminate.
Defined.

(** C8. Cancelling an id that some order has answers 200 whatever the status
    of that order, including [delivered]; afterwards the store has as many
    orders as before, the order is at its place with status [cancelled] and
    its other fields as they were, and it is still found under its id.
    Cancelling an id that no order has is refused with 404, the store left
    as it was. *)
Theorem cancel_order_cancels store rid :
  (forall o, o ∈ store -> id o = rid ->
   exists i before after,
     store !! i = Some before /\
     id before = rid /\
     cancel_order store rid =
       (json (CancelBody "Order cancelled successfully" after),
        alter (set_status "cancelled") i store) /\
     length (snd (cancel_order store rid)) = length store /\
     snd (cancel_order store rid) !! i = Some after /\
     status after = "cancelled" /\
     (id after, userId after, items after, totalAmount after, createdAt after) =
       (id before, userId before, items before, totalAmount before, createdAt before) /\
     get_order (snd (cancel_order store rid)) rid = json (OrderBody after)) /\
  ((forall o, o ∈ store -> id o <> rid) ->
   cancel_order store rid = (fail 404 "Order not found", store)).
Proof.
  split.
  - intros o Hin Hid.
    destruct (findIndex_present store rid o Hin Hid) as (i & before & E & Hi & Hb).
    exists i, before, (set_status "cancelled" before).
    unfold cancel_order. rewrite E. cbn [fst snd].
    split; [exact Hi |]. split; [exact Hb |]. split; [reflexivity |].
    split; [apply length_alter |].
    split; [by rewrite list_lookup_alter_eq, Hi |].
    split; [reflexivity |]. split; [reflexivity |].
    unfold get_order.
    by rewrite (findIndex_alter store rid i before (set_status "cancelled")).
  - intros Habsent. unfold cancel_order.
    by rewrite (findIndex_absent store rid Habsent).
Qed.

Lemma cancel_order_cancels_example :
  let delivered :=
    mkOrder "o-1" (Some "user-1") [] 0%float "delivered" "2024-01-01T00:00:00.000Z" in
  cancel_order [delivered] "o-1" =
    (json (CancelBody "Order cancelled successfully" (set_status "cancelled" delivered)),
     [set_status "cancelled" delivered]) /\
  cancel_order [delivered] "o-2" = (fail 404 "Order not found", [delivered]).
Proof.
  intros delivered. split.
  - destruct (proj1 (cancel_order_cancels [delivered] "o-1") delivered)
      as (i & before & after & _ & _ & _ & _ & _ & _ & _ & _).
    + apply list_elem_of_here.
    + reflexivity.
    + reflexivity.
  - apply (proj2 (cancel_order_cancels [delivered] "o-2")).
    intros o Ho. apply list_elem_of_singleton in Ho as ->. discriminate.
Defined.

(** C10. A status update with a recognized status and an id that some
    order has answers 200 with the updated order; in the store afterwards
    that order (the first with the id) has the new status and its id,
    [userId], items, [totalAmount] and [createdAt] as before, every other
    position holds the order it held, and the length is the same. *)
Theorem patch_status_frame store rid s :
  s ∈ validStatuses ->
  (exists o, o ∈ store /\ id o = rid) ->
  exists i before after,
    store !! i = Some before /\
    id before = rid /\
    fst (patch_status store rid (Some s)) = json (OrderBody after) /\
    snd (patch_status store rid (Some s)) !! i = Some after /\
    status after = s /\
    id after = id before /\
    userId after = userId before /\
    items after = items before /\
    totalAmount after = totalAmount before /\
    createdAt after = createdAt before /\
    (forall j, j <> i ->
       snd (patch_status store rid (Some s)) !! j = store !! j) /\
    length (snd (patch_status store rid (Some s))) = length store.
Proof.
  intros Hs (o & Hin & Hid).
  destruct (findIndex_present store rid o Hin Hid) as (i & before & E & Hi & Hb).
  exists i, before, (set_status s before).
  unfold patch_status.
  rewrite (valid_status_truthy s Hs), (proj2 (includes_elem_of _ _) Hs), E.
  cbn [negb orb fst snd].
  split; [exact Hi |]. split; [exact Hb |]. split; [reflexivity |].
  split; [by rewrite list_lookup_alter_eq, Hi |].
  do 6 (split; [reflexivity |]).
  split; [| apply length_alter].
  intros j Hj. by apply list_lookup_alter_ne.
Qed.

Lemma patch_status_frame_example :
  let first := mkOrder "o-1" (Some "user-1") [] 0%float "pending" "2024-01-01T00:00:00.000Z" in
  let second := mkOrder "o-2" (Some "user-2") [] 0%float "pending" "2024-01-02T00:00:00.000Z" in
  exists after,
    snd (patch_status [first; second] "o-2" (Some "shipped")) = [first; after] /\
    status after = "shipped" /\
    id after = "o-2".
Proof.
  intros first second.
  destruct (patch_status_frame [first; second] "o-2" "shipped")
    as (i & before & after & _).
  - unfold validStatuses. rewrite !elem_of_cons. auto.
  - exists second. split; [apply list_elem_of_further, list_elem_of_here | reflexivity].
  - exists (set_status "shipped" second). repeat split.
Defined.

(** ** Listing *)

(** C9, as stated, fails for a filter that is the empty string: the
    handler takes it as absent and lists every order, none of which has
    the empty user id. *)
Lemma empty_filter_lists_all :
  let store := seed "o-1" "2024-01-01T00:00:00.000Z" in
  let query := Query.mk (Some "") None in
  list_orders store query = json (OrdersBody store) /\
  filter (matches query) store = [] /\
  list_orders store query <> json (OrdersBody (filter (matches query) store)).
Proof.
  intros store query.
  split; [reflexivity |]. split; [reflexivity |]. intros H. discriminate H.
Qed.

Lemma filter_all {A : Type} (P : A -> Prop) `{!forall x, Decision (P x)} (l : list A) :
  (forall x, P x) -> filter P l = l.
Proof.
  intros Hall. induction l as [|x l IH]; [reflexivity |].
  by rewrite filter_cons_True, IH.
Qed.

Lemma given_truthy v : Js.truthy_string v = true -> given v = v.
Proof. unfold given. by intros ->. Qed.

Lemma given_falsy v : Js.truthy_string v = false -> given v = None.
Proof. unfold given. by intros ->. Qed.

Lemma list_orders_applied store query :
  list_orders store query =
    json (OrdersBody (filter (matches (applied query)) store)).
Proof.
  unfold list_orders. do 2 f_equal.
  destruct (Js.truthy_string (Query.userId query)) eqn:Hu,
           (Js.truthy_string (Query.status query)) eqn:Hs.
  - rewrite list_filter_filter. apply list_filter_iff. intros o.
    unfold matches, applied. cbn [Query.userId Query.status].
    rewrite (given_truthy _ Hu), (given_truthy _ Hs).
    destruct (Query.userId query) as [u|]; [| discriminate Hu].
    destruct (Query.status query) as [s|]; [| discriminate Hs].
    split; intros [H1 H2]; split; congruence.
  - apply list_filter_iff. intros o.
    unfold matches, applied. cbn [Query.userId Query.status].
    rewrite (given_truthy _ Hu), (given_falsy _ Hs).
    destruct (Query.userId query) as [u|]; [| discriminate Hu]. tauto.
  - apply list_filter_iff. intros o.
    unfold matches, applied. cbn [Query.userId Query.status].
    rewrite (given_falsy _ Hu), (given_truthy _ Hs).
    destruct (Query.status query) as [s|]; [| discriminate Hs].
    split; [intros H; split; [exact I | congruence] | intros [_ H]; congruence].
  - symmetry. apply filter_all. intros o.
    unfold matches, applied. cbn [Query.userId Query.status].
    by rewrite (given_falsy _ Hu), (given_falsy _ Hs).
Qed.

(** C9, amended. Listing returns, in the order of the store, exactly the
    orders that match every filter that is given and is not the empty
    string; a filter that is absent or empty imposes nothing.  So for a
    query without an empty filter it returns exactly the orders that match
    the query, and for a user id [U] other than the empty string exactly
    the orders of [U]. *)
Theorem list_orders_filtered store query :
  list_orders store query =
    json (OrdersBody (filter (matches (applied query)) store)) /\
  (Query.userId query <> Some "" -> Query.status query <> Some "" ->
   list_orders store query = json (OrdersBody (filter (matches query) store))) /\
  (forall U, U <> "" ->
   list_orders store (Query.mk (Some U) None) =
     json (OrdersBody (filter (fun o => userId o = Some U) store))).
Proof.
  split; [apply list_orders_applied |]. split.
  - intros Hu Hs. rewrite list_orders_applied. do 2 f_equal.
    assert (applied query = query) as ->; [| reflexivity].
    destruct query as [[u|] [s|]]; unfold applied, given; simpl in *;
      repeat match goal with
      | |- context [String.eqb ?x ""] =>
          destruct (String.eqb_spec x ""); [subst; congruence |]
      end; reflexivity.
  - intros U HU. rewrite list_orders_applied. do 2 f_equal.
    apply list_filter_iff. intros o. unfold matches, applied, given. simpl.
    destruct (String.eqb_spec U ""); [congruence |]. simpl. tauto.
Qed.

Lemma list_orders_filtered_example :
  let first := mkOrder "o-1" (Some "user-1") [] 0%float "pending" "2024-01-01T00:00:00.000Z" in
  let second := mkOrder "o-2" (Some "user-2") [] 0%float "pending" "2024-01-02T00:00:00.000Z" in
  let third := mkOrder "o-3" (Some "user-1") [] 0%float "shipped" "2024-01-03T00:00:00.000Z" in
  list_orders [first; second; third] (Query.mk (Some "user-1") None) =
    json (OrdersBody [first; third]).
Proof.
  intros first second third.
  refine (eq_trans
    (proj2 (proj2 (list_orders_filtered [first; second; third]
                     (Query.mk (Some "user-1") None))) "user-1" _) _).
  - discriminate.
  - reflexivity.
Defined.

(** ** The gateway's health check *)

Lemma get_health_loaded env :
  Gateway.axios_loads env = true ->
  Gateway.get_health env =
    (Gateway.mkHealth "healthy" (Gateway.now env)
       (Gateway.mkServices
          (Gateway.verdict (Gateway.probe env Gateway.Books))
          (Gateway.verdict (Gateway.probe env Gateway.Users))
          (Gateway.verdict (Gateway.probe env Gateway.Orders))),
     [(Gateway.Books, Gateway.probe env Gateway.Books);
      (Gateway.Users, Gateway.probe env Gateway.Users);
      (Gateway.Orders, Gateway.probe env Gateway.Orders)]).
Proof.
  intros H. unfold Gateway.get_health, Gateway.health. simpl. by rewrite H.
Qed.

Lemma get_health_not_loaded env :
  Gateway.axios_loads env = false ->
  Gateway.get_health env =
    (Gateway.mkHealth "healthy" (Gateway.now env)
       (Gateway.mkServices "unknown" "unknown" "unknown"),
     []).
Proof.
  intros H. unfold Gateway.get_health, Gateway.health. simpl. by rewrite H.
Qed.

(** Each address of the health check begins with [$]: the client rejects
    it, whatever the backend would answer. *)
Lemma health_client_rejects loads transport date s :
  Gateway.probe (health_client loads transport date) s = false.
Proof. by destruct s. Qed.

(** C3, on the code. With the HTTP client loaded, and whatever the three
    backends would answer to a probe (all three up and answering 2xx at once
    included): the handler probes the literal addresses
    [${BOOKS_SERVICE_URL}/health], [${USERS_SERVICE_URL}/health] and
    [${ORDERS_SERVICE_URL}/health], the client rejects each of them, and
    every backend is reported [unhealthy]; the gateway itself is reported
    [healthy]. *)
Theorem health_misses_live_backends transport date :
  let result := Gateway.get_health (health_client true transport date) in
  Gateway.gateway (fst result) = "healthy" /\
  snd result =
    [(Gateway.Books, false); (Gateway.Users, false); (Gateway.Orders, false)] /\
  health_url <$> (fst <$> snd result) =
    ["${BOOKS_SERVICE_URL}/health"; "${USERS_SERVICE_URL}/health";
     "${ORDERS_SERVICE_URL}/health"] /\
  forall s, Gateway.reported (fst result) s = "unhealthy".
Proof.
  intros result. subst result.
  rewrite (get_health_loaded (health_client true transport date) eq_refl).
  rewrite !health_client_rejects. cbn [fst snd Gateway.gateway].
  repeat split. intros s. by destruct s.
Qed.


(** * Further properties of the orders router *)

(** ** What a creation request does to the store *)

(** A run of creation either accepts the request, with all that made it
    acceptable, or refuses it with 400 and leaves the store alone. *)
Lemma post_order_outcome env store body :
  (exists reqItems c,
      Req.items body = Some reqItems /\
      Js.truthy_string (Req.userId body) = true /\
      reqItems <> [] /\
      Forall (fun item => invalid_item item = false) reqItems /\
      post_order env store body =
        (mkResponse 201 (OrderBody (newOrder env body reqItems)),
         mkWorld (store ++ [newOrder env body reqItems])
           (GetUser (Req.userId body) :: book_requests reqItems) c)) \/
  (exists msg pre c,
      post_order env store body =
        (fail 400 msg,
         mkWorld store
           (if Js.truthy_string (Req.userId body)
            then match Req.items body with
                 | Some (_ :: _) => GetUser (Req.userId body) :: book_requests pre
                 | _ => []
                 end
            else [])
           c) /\
      exists post, Req.items body = None \/ Req.items body = Some (pre ++ post)).
Proof.
  destruct (Req.items body) as [reqItems|] eqn:Hitems.
  2:{ right. exists "UserId and items are required", [], [].
      unfold post_order, create_order. rewrite Hitems.
      split; [by destruct (Js.truthy_string (Req.userId body)) | exists []; auto]. }
  destruct (first_invalid reqItems) as [Hvalid | (pre & bad & post & -> & Hpre & Hbad)].
  - destruct (Js.truthy_string (Req.userId body)) eqn:Hu.
    2:{ right. exists "UserId and items are required", [], [].
        unfold post_order, create_order. rewrite Hitems, Hu.
        split; [reflexivity | exists reqItems; auto]. }
    destruct reqItems as [|item rest].
    { right. exists "UserId and items are required", [], [].
      unfold post_order, create_order. rewrite Hitems, Hu.
      split; [reflexivity | exists []; auto]. }
    left. destruct (post_order_valid env store body (item :: rest)) as [c E];
      [exact Hitems | exact Hu | discriminate | exact Hvalid |].
    exists (item :: rest), c. repeat split; auto.
  - right.
    destruct (post_order_invalid_item env store body pre bad post)
      as (c & E); [exact Hitems | exact Hpre | exact Hbad |].
    rewrite E. destruct (Js.truthy_string (Req.userId body)).
    + exists "Each item must have bookId and positive quantity", pre, c.
      split; [by destruct pre | exists (bad :: post); auto].
    + exists "UserId and items are required", pre, c.
      split; [reflexivity | exists (bad :: post); auto].
Qed.

(** X1. A creation request is answered 201 or 400 and nothing else.  With
    201 exactly one order is added, at the end of the store, with the id
    and the time the environment gave, the user id of the request and the
    status [pending]; with 400 the store is as it was.  The orders that were
    there are never changed, removed or moved. *)
Theorem create_order_appends env store body :
  (exists created,
      fst (post_order env store body) = mkResponse 201 (OrderBody created) /\
      orders (snd (post_order env store body)) = store ++ [created] /\
      id created = uuidv4 env /\
      createdAt created = now env /\
      userId created = Req.userId body /\
      status created = "pending") \/
  (exists msg,
      fst (post_order env store body) = fail 400 msg /\
      orders (snd (post_order env store body)) = store).
Proof.
  destruct (post_order_outcome env store body)
    as [(reqItems & c & _ & _ & _ & _ & E) | (msg & pre & c & E & _)]; rewrite E.
  - left. exists (newOrder env body reqItems). repeat split.
  - right. exists msg. split; reflexivity.
Qed.

Lemma looked_up_valid (reqItems : list Req.Item) :
  Forall (fun item => invalid_item item = false) reqItems ->
  looked_up reqItems = reqItems.
Proof.
  induction 1 as [|item rest Hitem _ IH]; [reflexivity |].
  simpl. by rewrite Hitem, IH.
Qed.

Lemma looked_up_invalid (pre : list Req.Item) bad post :
  Forall (fun item => invalid_item item = false) pre ->
  invalid_item bad = true ->
  looked_up (pre ++ bad :: post) = pre.
Proof.
  induction 1 as [|item rest Hitem _ IH]; intros Hbad; simpl.
  - by rewrite Hbad.
  - by rewrite Hitem, IH.
Qed.

Lemma url_book_requests (reqItems : list Req.Item) :
  url <$> book_requests reqItems =
    replicate (length reqItems) "${BOOKS_SERVICE_URL}/api/books/${item.bookId}".
Proof.
  induction reqItems as [|item rest IH]; [reflexivity |].
  cbn [book_requests map length replicate]. rewrite fmap_cons.
  cbn [url]. f_equal. exact IH.
Qed.

(** X2. The requests a creation sends.  When the user id is missing or
    empty, or the items array is missing or empty, none is sent and the
    answer is 400.  Otherwise the user lookup is sent, and after it one
    catalog lookup for each item that comes before the first item failing
    the check of the loop, in item order, and nothing else; the answer is
    201 exactly when no item fails, and then there is one lookup per item.
    Every catalog lookup passes the client the same literal address, and
    the user lookup another. *)
Theorem create_order_requests env store body :
  let result := post_order env store body in
  match Req.items body with
  | Some (item :: rest) =>
      if Js.truthy_string (Req.userId body)
      then
        requests (snd result) =
          GetUser (Req.userId body) :: book_requests (looked_up (item :: rest)) /\
        url <$> requests (snd result) =
          "${USERS_SERVICE_URL}/api/users/${userId}"
            :: replicate (length (looked_up (item :: rest)))
                 "${BOOKS_SERVICE_URL}/api/books/${item.bookId}" /\
        (statusCode (fst result) = 201 <->
           looked_up (item :: rest) = item :: rest) /\
        (statusCode (fst result) = 400 <->
           looked_up (item :: rest) <> item :: rest)
      else requests (snd result) = [] /\ statusCode (fst result) = 400
  | Some [] | None => requests (snd result) = [] /\ statusCode (fst result) = 400
  end.
Proof.
  intros result. subst result.
  destruct (Req.items body) as [[|item rest]|] eqn:Hitems;
    [unfold post_order, create_order; rewrite Hitems;
     by destruct (Js.truthy_string (Req.userId body)) | |
     unfold post_order, create_order; by rewrite Hitems].
  destruct (Js.truthy_string (Req.userId body)) eqn:Hu;
    [| unfold post_order, create_order; by rewrite Hitems, Hu].
  destruct (first_invalid (item :: rest))
    as [Hvalid | (pre & bad & post & Hsplit & Hpre & Hbad)].
  - destruct (post_order_valid env store body (item :: rest)) as [c E];
      [exact Hitems | exact Hu | discriminate | exact Hvalid |].
    rewrite E, (looked_up_valid _ Hvalid).
    cbn [fst snd requests statusCode fmap list_fmap].
    rewrite <- url_book_requests. cbn [url].
    repeat split; try done.
  - destruct (post_order_invalid_item env store body pre bad post) as [c E];
      [by rewrite Hitems, Hsplit | exact Hpre | exact Hbad |].
    rewrite E, Hu, Hsplit, (looked_up_invalid pre bad post Hpre Hbad).
    cbn [fst snd requests statusCode fail fmap list_fmap].
    rewrite <- url_book_requests. cbn [url].
    assert (pre <> pre ++ bad :: post) as Hneq.
    { intros H. apply (f_equal length) in H. rewrite length_app in H.
      simpl in H. lia. }
    repeat split; try done.
Qed.

(** ** Reading an order back *)

Lemma findIndex_app_fresh store o :
  (forall x, x ∈ store -> id x <> id o) ->
  findIndex (store ++ [o]) (id o) = Some (length store, o).
Proof.
  intros Hfresh. unfold findIndex.
  rewrite list_find_app_r by (by apply findIndex_absent).
  simpl. rewrite decide_True by reflexivity. reflexivity.
Qed.

(** X3. Read-back of a created order: when creation answers 201 and the
    id it drew is the id of no order already stored, a read of that id
    returns exactly the order that creation returned; and a read of an id
    that no stored order has is answered 404. *)
Theorem get_order_after_create env store body created :
  fst (post_order env store body) = mkResponse 201 (OrderBody created) ->
  (forall o, o ∈ store -> id o <> uuidv4 env) ->
  get_order (orders (snd (post_order env store body))) (id created) =
    json (OrderBody created) /\
  forall rid,
    rid <> id created ->
    (forall o, o ∈ store -> id o <> rid) ->
    get_order (orders (snd (post_order env store body))) rid =
      fail 404 "Order not found".
Proof.
  intros Hresp Hfresh.
  destruct (post_order_outcome env store body)
    as [(reqItems & c & _ & _ & _ & _ & E) | (msg & pre & c & E & _)];
    rewrite E in *; cbn [fst snd orders] in *; [| discriminate Hresp].
  injection Hresp as <-. split.
  - unfold get_order. rewrite findIndex_app_fresh; [reflexivity |].
    intros x Hx. by apply Hfresh.
  - intros rid Hrid Habsent. unfold get_order.
    rewrite findIndex_absent; [reflexivity |].
    intros o [Ho | Ho%list_elem_of_singleton]%elem_of_app; [by apply Habsent |].
    by subst o.
Qed.

Lemma get_order_after_create_example :
  let env := mkEnv (fun _ _ => Rejected) "o-2" "2024-01-02T00:00:00.000Z" in
  let store := seed "o-1" "2024-01-01T00:00:00.000Z" in
  let body := Req.mkBody (Some "u1") (Some [Req.mkItem (Some "b1") (Some 2%float)]) in
  let created :=
    mkOrder "o-2" (Some "u1")
      [mkOrderItem (Some "b1") (Some 2%float) (Some 10.99%float)]
      21.98%float "pending" "2024-01-02T00:00:00.000Z" in
  get_order (orders (snd (post_order env store body))) "o-2" = json (OrderBody created) /\
  get_order (orders (snd (post_order env store body))) "o-3" = fail 404 "Order not found".
Proof.
  intros env store body created.
  destruct (get_order_after_create env store body created) as [Hget Hmiss].
  - vm_compute. reflexivity.
  - intros o Ho%list_elem_of_singleton. subst o. discriminate.
  - split; [exact Hget |]. apply Hmiss; [discriminate |].
    intros o Ho%list_elem_of_singleton. subst o. discriminate.
Defined.

(** ** Status updates and cancels together *)

(** X4. A cancel is a status update to [cancelled]: the two leave the same
    store, answer 200 with the same order (the cancel wraps it with a
    message) and answer 404 for the same ids. *)
Theorem cancel_is_patch_cancelled store rid :
  snd (cancel_order store rid) = snd (patch_status store rid (Some "cancelled")) /\
  (forall o,
     fst (cancel_order store rid) =
       json (CancelBody "Order cancelled successfully" o) <->
     fst (patch_status store rid (Some "cancelled")) = json (OrderBody o)) /\
  (fst (cancel_order store rid) = fail 404 "Order not found" <->
   fst (patch_status store rid (Some "cancelled")) = fail 404 "Order not found").
Proof.
  unfold cancel_order, patch_status.
  change (negb (Js.truthy_string (Some "cancelled"))
          || negb (includes validStatuses "cancelled")) with false.
  cbn iota. destruct (findIndex store rid) as [[i o]|]; cbn [fst snd].
  - split; [reflexivity |]. split.
    + intros o'. split; intros H; injection H as <-; reflexivity.
    + split; intros H; discriminate H.
  - split; [reflexivity |]. split; [| tauto].
    intros o'. split; intros H; discriminate H.
Qed.

(** X5. There is no transition guard, and the last status written wins: a
    status update to a recognized status, made after any other status
    update of the same id (accepted or refused), answers and leaves the
    store exactly as it does when made alone. *)
Theorem patch_status_overwrites store rid (st1 : option string) s2 :
  s2 ∈ validStatuses ->
  patch_status (snd (patch_status store rid st1)) rid (Some s2) =
    patch_status store rid (Some s2).
Proof.
  intros Hs2.
  assert (forall s1 i o, findIndex store rid = Some (i, o) ->
            patch_status (alter (set_status s1) i store) rid (Some s2) =
              patch_status store rid (Some s2)) as Hover.
  { intros s1 i o E. unfold patch_status.
    rewrite (valid_status_truthy s2 Hs2), (proj2 (includes_elem_of _ _) Hs2).
    cbn [negb orb].
    rewrite (findIndex_alter store rid i o (set_status s1)), E by auto.
    f_equal. rewrite list_alter_alter_eq. by apply list_alter_ext. }
  unfold patch_status at 2.
  destruct st1 as [s1|]; [| reflexivity].
  destruct (negb (Js.truthy_string (Some s1)) || negb (includes validStatuses s1));
    [reflexivity |].
  destruct (findIndex store rid) as [[i o]|] eqn:E; [| reflexivity].
  cbn [snd]. by apply (Hover s1 i o).
Qed.

Lemma patch_status_overwrites_example :
  let cancelled := mkOrder "o-1" (Some "user-1") [] 0%float "cancelled" "2024-01-01T00:00:00.000Z" in
  snd (patch_status (snd (patch_status [cancelled] "o-1" (Some "delivered")))
         "o-1" (Some "pending")) =
    [set_status "pending" cancelled].
Proof.
  intros cancelled.
  rewrite (patch_status_overwrites [cancelled] "o-1" (Some "delivered") "pending").
  - reflexivity.
  - unfold validStatuses. rewrite !elem_of_cons. auto.
Defined.

(** X6. Whatever its input, and whether it is accepted or refused, a
    status update or a cancel changes nothing but status fields: with the
    statuses blanked out the store afterwards is the store before (the same
    orders, as many, in the same sequence, each with its id, user, lines,
    total and creation time). *)
Theorem status_changes_only_status store rid st :
  set_status "" <$> snd (patch_status store rid st) = set_status "" <$> store /\
  set_status "" <$> snd (cancel_order store rid) = set_status "" <$> store.
Proof.
  assert (forall s i, set_status "" <$> alter (set_status s) i store =
                      set_status "" <$> store) as Hblank.
  { intros s i.
    rewrite (list_fmap_alter (set_status "") (set_status s) (fun o => o))
      by (apply Forall_forall; reflexivity).
    by apply list_alter_id. }
  split.
  - unfold patch_status. destruct st as [s|]; [| reflexivity].
    destruct (negb (Js.truthy_string (Some s)) || negb (includes validStatuses s));
      [reflexivity |].
    destruct (findIndex store rid) as [[i o]|]; [apply Hblank | reflexivity].
  - unfold cancel_order.
    destruct (findIndex store rid) as [[i o]|]; [apply Hblank | reflexivity].
Qed.

(** ** What holds of every store the service can be in *)

Lemma priced_lines_well_formed env (reqItems : list Req.Item) : forall n,
  Forall (fun item => invalid_item item = false) reqItems ->
  Forall well_formed_line (priced_lines env n reqItems).
Proof.
  induction reqItems as [|item rest IH]; intros n Hvalid; [constructor |].
  inversion Hvalid as [|? ? Hitem Hrest]; subst.
  cbn [priced_lines]. constructor; [| by apply IH].
  by apply valid_item_iff in Hitem.
Qed.

(** A property of single orders that the seeded order has, that every newly
    created order has, and that a change to a recognized status keeps,
    holds of all orders of every store a step leads to. *)
Lemma OrderStep_Forall (P : Order -> Prop) :
  (forall s o, s ∈ validStatuses -> P o -> P (set_status s o)) ->
  (forall env body reqItems,
     Req.items body = Some reqItems ->
     Js.truthy_string (Req.userId body) = true ->
     reqItems <> [] ->
     Forall (fun item => invalid_item item = false) reqItems ->
     P (newOrder env body reqItems)) ->
  forall store store', OrderStep store store' -> Forall P store -> Forall P store'.
Proof.
  intros Hset Hnew store store' Hstep HP.
  destruct Hstep as [env body store | rid st store | rid store].
  - destruct (post_order_outcome env store body)
      as [(reqItems & c & H1 & H2 & H3 & H4 & E) | (msg & pre & c & E & _)];
      rewrite E; cbn [snd orders]; [| exact HP].
    apply Forall_app. split; [exact HP |]. repeat constructor. by apply Hnew.
  - unfold patch_status. destruct st as [s|]; [| exact HP].
    destruct (includes validStatuses s) eqn:Hs;
      [| by rewrite orb_true_r].
    destruct (negb (Js.truthy_string (Some s)) || negb true); [exact HP |].
    destruct (findIndex store rid) as [[i o]|]; [| exact HP].
    cbn [snd]. apply Forall_alter; [exact HP |].
    intros x _. apply Hset. by apply includes_elem_of.
  - unfold cancel_order.
    destruct (findIndex store rid) as [[i o]|]; [| exact HP].
    cbn [snd]. apply Forall_alter; [exact HP |].
    intros x _. apply Hset. unfold validStatuses. rewrite !elem_of_cons. auto 10.
Qed.

Lemma reachable_Forall (P : Order -> Prop) :
  (forall uuid now, Forall P (seed uuid now)) ->
  (forall s o, s ∈ validStatuses -> P o -> P (set_status s o)) ->
  (forall env body reqItems,
     Req.items body = Some reqItems ->
     Js.truthy_string (Req.userId body) = true ->
     reqItems <> [] ->
     Forall (fun item => invalid_item item = false) reqItems ->
     P (newOrder env body reqItems)) ->
  forall store, reachable store -> Forall P store.
Proof.
  intros Hseed Hset Hnew store (uuid & now & Hrtc).
  apply (rtc_ind_r (R := OrderStep) (fun s => Forall P s) (seed uuid now));
    [apply Hseed | | exact Hrtc].
  intros store1 store2 _ Hstep IH.
  by apply (OrderStep_Forall P Hset Hnew store1 store2).
Qed.

Lemma reachable_after_cancel :
  reachable (snd (cancel_order (seed "o-1" "2024-01-01T00:00:00.000Z") "o-1")).
Proof.
  exists "o-1", "2024-01-01T00:00:00.000Z". apply rtc_once. constructor.
Defined.

(** X7. In every store the service can be in (reached from the seeded
    array by creations, status updates and cancels with any input), the
    status of every order is one of [pending], [confirmed], [shipped],
    [delivered], [cancelled]. *)
Theorem reachable_statuses_recognized store :
  reachable store -> Forall recognized store.
Proof.
  apply reachable_Forall.
  - intros uuid now. repeat constructor.
  - intros s o Hs _. exact Hs.
  - intros env body reqItems _ _ _ _.
    unfold recognized, validStatuses. cbn [newOrder status].
    rewrite !elem_of_cons. auto.
Qed.

Lemma reachable_statuses_recognized_example :
  Forall recognized (snd (cancel_order (seed "o-1" "2024-01-01T00:00:00.000Z") "o-1")).
Proof.
  apply reachable_statuses_recognized. exact reachable_after_cancel.
Defined.

(** X8. In every store the service can be in, every order has a non-empty
    user id and at least one line, and every line has a non-empty book id
    and a quantity that is a number above zero. *)
Theorem reachable_orders_well_formed store :
  reachable store -> Forall well_formed store.
Proof.
  apply reachable_Forall.
  - intros uuid now. constructor; [| constructor].
    split; [reflexivity |]. split; [discriminate |].
    cbn [seed items]. constructor; [| constructor; [| constructor]];
      (split; [reflexivity | eexists; split; reflexivity]).
  - intros s o _ H. exact H.
  - intros env body reqItems _ Hu Hne Hvalid. split; [exact Hu |]. split.
    + cbn [newOrder items]. intros H. apply Hne.
      apply (f_equal length) in H. rewrite length_priced_lines in H.
      by destruct reqItems.
    + by apply priced_lines_well_formed.
Qed.

Lemma reachable_orders_well_formed_example :
  Forall well_formed (snd (cancel_order (seed "o-1" "2024-01-01T00:00:00.000Z") "o-1")).
Proof.
  apply reachable_orders_well_formed. exact reachable_after_cancel.
Defined.

(** X9. In every store the service can be in, the total of every order is
    the sum of price times quantity over the lines the order holds, taken
    in line order from zero and rounded to two decimals; the seeded 40.97
    is that of its two lines, and no later request changes lines or total. *)
Theorem reachable_totals_consistent store :
  reachable store -> Forall total_consistent store.
Proof.
  apply reachable_Forall.
  - intros uuid now. constructor; [| constructor].
    unfold total_consistent. vm_compute. reflexivity.
  - intros s o _ H. exact H.
  - intros env body reqItems _ _ _ _. reflexivity.
Qed.

Lemma reachable_totals_consistent_example :
  Forall total_consistent (snd (cancel_order (seed "o-1" "2024-01-01T00:00:00.000Z") "o-1")).
Proof.
  apply reachable_totals_consistent. exact reachable_after_cancel.
Defined.

(** ** Ids *)

Lemma fmap_id_alter_set_status s i (store : list Order) :
  id <$> alter (set_status s) i store = id <$> store.
Proof.
  rewrite (list_fmap_alter id (set_status s) (fun x => x))
    by (apply Forall_forall; reflexivity).
  by apply list_alter_id.
Qed.

Lemma FreshStep_ids store store' :
  FreshStep store store' -> NoDup (id <$> store) -> NoDup (id <$> store').
Proof.
  intros Hstep Hnodup.
  destruct Hstep as [env body store Hfresh | rid st store | rid store].
  - destruct (post_order_outcome env store body)
      as [(reqItems & c & _ & _ & _ & _ & E) | (msg & pre & c & E & _)];
      rewrite E; cbn [snd orders]; [| exact Hnodup].
    rewrite fmap_app. apply NoDup_app. split; [exact Hnodup |]. split.
    + intros x Hx [Hin | Hin]%elem_of_cons; [| by apply elem_of_nil in Hin].
      apply list_elem_of_fmap in Hx as (o & -> & Ho).
      by apply (Hfresh o Ho).
    + apply NoDup_singleton.
  - unfold patch_status. destruct st as [s|]; [| exact Hnodup].
    destruct (negb (Js.truthy_string (Some s)) || negb (includes validStatuses s));
      [exact Hnodup |].
    destruct (findIndex store rid) as [[i o]|]; [| exact Hnodup].
    cbn [snd]. by rewrite fmap_id_alter_set_status.
  - unfold cancel_order.
    destruct (findIndex store rid) as [[i o]|]; [| exact Hnodup].
    cbn [snd]. by rewrite fmap_id_alter_set_status.
Qed.

Lemma findIndex_NoDup store o :
  NoDup (id <$> store) -> o ∈ store ->
  exists i, findIndex store (id o) = Some (i, o).
Proof.
  intros Hnodup Hin.
  destruct (findIndex_present store (id o) o Hin eq_refl) as (i & first & E & Hi & Hid).
  exists i. rewrite E. do 2 f_equal.
  apply list_elem_of_lookup in Hin as [j Hj].
  assert (i = j) as ->.
  { apply (NoDup_lookup (id <$> store) i j (id o)); [exact Hnodup | |].
    - by rewrite list_lookup_fmap, Hi, <- Hid.
    - by rewrite list_lookup_fmap, Hj. }
  congruence.
Qed.

(** X10. As long as every creation draws an id that no stored order has,
    no two orders of the store share an id, and every stored order is what
    a read of its id returns. *)
Theorem fresh_ids_unique uuid now store :
  rtc FreshStep (seed uuid now) store ->
  NoDup (id <$> store) /\
  forall o, o ∈ store -> get_order store (id o) = json (OrderBody o).
Proof.
  intros Hrtc.
  assert (NoDup (id <$> store)) as Hnodup.
  { apply (rtc_ind_r (R := FreshStep) (fun s => NoDup (id <$> s)) (seed uuid now));
      [apply NoDup_singleton | | exact Hrtc].
    intros store1 store2 _ Hstep IH. by apply (FreshStep_ids store1 store2). }
  split; [exact Hnodup |].
  intros o Hin. unfold get_order.
  by destruct (findIndex_NoDup store o Hnodup Hin) as [i ->].
Qed.

Lemma fresh_ids_unique_example :
  let env := mkEnv (fun _ _ => Rejected) "o-2" "2024-01-02T00:00:00.000Z" in
  let store := seed "o-1" "2024-01-01T00:00:00.000Z" in
  let body := Req.mkBody (Some "u1") (Some [Req.mkItem (Some "b1") (Some 2%float)]) in
  NoDup (id <$> orders (snd (post_order env store body))).
Proof.
  intros env store body.
  apply (fresh_ids_unique "o-1" "2024-01-01T00:00:00.000Z").
  apply rtc_once. apply (FreshCreate env body store).
  intros o Ho%list_elem_of_singleton. subst o. discriminate.
Defined.

(** * The users router and the books router *)

(** ** Strict equality *)

Lemma SFcompare_antisym a b :
  SFcompare b a = option_map CompOpp (SFcompare a b).
Proof.
  destruct a as [[]|[]| |[] m e], b as [[]|[]| |[] m' e']; simpl; try reflexivity.
  all: rewrite (Z.compare_antisym e e'); destruct (e ?= e')%Z; simpl; try reflexivity.
  all: pose proof (Pos.compare_cont_antisym m m' Eq) as H; simpl in H; rewrite <- H.
  all: by destruct (Pos.compare_cont Eq m m').
Qed.

Lemma SFeqb_sym a b : SFeqb a b = SFeqb b a.
Proof.
  unfold SFeqb. rewrite (SFcompare_antisym a b).
  by destruct (SFcompare a b) as [[]|].
Qed.

Lemma strict_eq_sym a b : Rest.strict_eq a b = Rest.strict_eq b a.
Proof.
  destruct a as [[|x|x|x]|], b as [[|y|y|y]|]; simpl; try reflexivity.
  - by destruct x, y.
  - by rewrite !FloatAxioms.eqb_spec, SFeqb_sym.
  - apply String.eqb_sym.
Qed.

Lemma strict_eq_string v s :
  Rest.strict_eq v (Some (Rest.VString s)) = true <-> v = Some (Rest.VString s).
Proof.
  destruct v as [[|x|x|x]|]; simpl; split; try discriminate.
  - by intros ->%String.eqb_eq.
  - intros [= ->]. apply String.eqb_refl.
Qed.

(** ** Finding a record *)

Lemma rest_findIndex_Some records rid i r :
  Rest.findIndex records rid = Some (i, r) <->
  records !! i = Some r /\
  r !! "id" = Some (Rest.VString rid) /\
  forall j x, records !! j = Some x -> j < i -> x !! "id" <> Some (Rest.VString rid).
Proof.
  unfold Rest.findIndex. rewrite list_find_Some.
  rewrite strict_eq_string. split.
  - intros (Hi & Hid & Hbefore). repeat split; auto.
    intros j x Hj Hlt Hx. by apply (Hbefore j x Hj Hlt), strict_eq_string.
  - intros (Hi & Hid & Hbefore). repeat split; auto.
    intros j x Hj Hlt Hx%strict_eq_string. by apply (Hbefore j x Hj Hlt).
Qed.

Lemma rest_findIndex_None records rid :
  Rest.findIndex records rid = None <->
  forall r, r ∈ records -> r !! "id" <> Some (Rest.VString rid).
Proof.
  unfold Rest.findIndex. rewrite list_find_None, Forall_forall. split.
  - intros H r Hr Hid. by apply (H r Hr), strict_eq_string.
  - intros H r Hr Hid%strict_eq_string. by apply (H r Hr).
Qed.

Lemma rest_findIndex_present records rid r :
  r ∈ records -> r !! "id" = Some (Rest.VString rid) ->
  exists i first, Rest.findIndex records rid = Some (i, first).
Proof.
  intros Hin Hid.
  destruct (Rest.findIndex records rid) as [[i first]|] eqn:E; [eauto |].
  exfalso. by apply (proj1 (rest_findIndex_None records rid) E r Hin).
Qed.

(** ** Update *)

(** The object [{ ...old, ...body, id: rid }], property by property. *)
Lemma lookup_updated (old body : Rest.Obj) rid k :
  (<["id" := Rest.VString rid]> (body ∪ old)) !! k =
    if decide (k = "id") then Some (Rest.VString rid)
    else match body !! k with
         | Some v => Some v
         | None => old !! k
         end.
Proof.
  case_decide as Hk.
  - subst k. apply lookup_insert_eq.
  - rewrite lookup_insert_ne by congruence. rewrite lookup_union.
    by destruct (body !! k), (old !! k).
Qed.



Lemma rest_findIndex_insert records rid i old updated :
  Rest.findIndex records rid = Some (i, old) ->
  updated !! "id" = Some (Rest.VString rid) ->
  Rest.findIndex (<[i := updated]> records) rid = Some (i, updated).
Proof.
  intros (Hi & _ & Hbefore)%rest_findIndex_Some Hid.
  apply rest_findIndex_Some. split; [| split; [exact Hid |]].
  - apply list_lookup_insert_eq. by eapply lookup_lt_Some.
  - intros j x Hj Hlt. rewrite list_lookup_insert_ne in Hj by lia.
    by apply (Hbefore j).
Qed.

Lemma updated_twice (old body : Rest.Obj) rid :
  <["id" := Rest.VString rid]>
    (body ∪ <["id" := Rest.VString rid]> (body ∪ old)) =
  <["id" := Rest.VString rid]> (body ∪ old).
Proof.
  apply map_eq. intros k. rewrite !lookup_updated.
  case_decide; [reflexivity |]. by destruct (body !! k).
Qed.

(** X12. An update is idempotent: sent a second time with the same id and
    the same body, it gives the same answer as the first time and leaves
    the array as the first left it. *)
Theorem put_idempotent notFound records rid body :
  Rest.put notFound (snd (Rest.put notFound records rid body)) rid body =
    Rest.put notFound records rid body.
Proof.
  unfold Rest.put at 2 3.
  destruct (Rest.findIndex records rid) as [[i old]|] eqn:E; cbn [snd].
  - unfold Rest.put.
    rewrite (rest_findIndex_insert records rid i old
               (<["id" := Rest.VString rid]> (body ∪ old)) E)
      by apply lookup_insert_eq.
    by rewrite updated_twice, list_insert_insert_eq.
  - unfold Rest.put. by rewrite E.
Qed.

(** X13. No update changes an id: after any update, accepted or refused,
    and whatever [id] its body carries, the records have the ids they had,
    in the same sequence. *)
Theorem put_keeps_ids notFound records rid body :
  ids (snd (Rest.put notFound records rid body)) = ids records.
Proof.
  unfold Rest.put.
  destruct (Rest.findIndex records rid) as [[i old]|] eqn:E; [| reflexivity].
  apply rest_findIndex_Some in E as (Hi & Hold & _).
  cbn [snd]. unfold ids. rewrite list_fmap_insert.
  apply list_insert_id. rewrite list_lookup_fmap, Hi. cbn.
  by rewrite lookup_insert_eq, Hold.
Qed.

(** ** Removal *)

(** X14. A removal of an id that some record has answers 200 and takes
    out exactly one record, the first with that id: the records before it
    and after it stay, in their sequence.  A removal of an id that no
    record has is answered 404 and changes nothing. *)
Theorem remove_first notFound deleted records rid :
  (forall r, r ∈ records -> r !! "id" = Some (Rest.VString rid) ->
   exists before first after,
     records = before ++ first :: after /\
     first !! "id" = Some (Rest.VString rid) /\
     (forall x, x ∈ before -> x !! "id" <> Some (Rest.VString rid)) /\
     Rest.remove notFound deleted records rid =
       (Rest.json (Rest.Message deleted), before ++ after)) /\
  ((forall r, r ∈ records -> r !! "id" <> Some (Rest.VString rid)) ->
   Rest.remove notFound deleted records rid = (Rest.fail 404 notFound, records)).
Proof.
  split.
  - intros r Hin Hid.
    destruct (rest_findIndex_present records rid r Hin Hid) as (i & first & E).
    pose proof (proj1 (rest_findIndex_Some records rid i first) E)
      as (Hi & Hfirst & Hbefore).
    exists (take i records), first, (drop (S i) records).
    split; [by rewrite take_drop_middle |]. split; [exact Hfirst |]. split.
    + intros x [j Hj]%list_elem_of_lookup.
      apply lookup_take_Some in Hj as [Hj Hlt]. by apply (Hbefore j).
    + unfold Rest.remove. rewrite E. by rewrite delete_take_drop.
  - intros Habsent. unfold Rest.remove.
    by rewrite (proj2 (rest_findIndex_None records rid) Habsent).
Qed.

Lemma remove_first_example :
  let a : Rest.Obj := {[ "id" := Rest.VString "b-1"; "title" := Rest.VString "A" ]} in
  let b : Rest.Obj := {[ "id" := Rest.VString "b-2"; "title" := Rest.VString "B" ]} in
  let c : Rest.Obj := {[ "id" := Rest.VString "b-3"; "title" := Rest.VString "C" ]} in
  snd (Books.delete_book [a; b; c] "b-2") = [a; c] /\
  Books.delete_book [a; b; c] "b-4" = (Rest.fail 404 "Book not found", [a; b; c]).
Proof.
  intros a b c. split.
  - destruct (proj1 (remove_first "Book not found" "Book deleted successfully"
                       [a; b; c] "b-2") b)
      as (before & first & after & _ & _ & _ & _).
    + apply list_elem_of_further, list_elem_of_here.
    + reflexivity.
    + reflexivity.
  - apply (proj2 (remove_first "Book not found" "Book deleted successfully"
                    [a; b; c] "b-4")).
    intros r Hr. rewrite !elem_of_cons, elem_of_nil in Hr.
    destruct Hr as [-> | [-> | [-> | []]]]; discriminate.
Defined.

(** X15. When no two records share an id, a record that was removed is
    gone: after a removal of an id, a read of that id is answered 404. *)
Theorem get_after_remove notFound deleted records rid :
  NoDup (ids records) ->
  Rest.get_by_id notFound (snd (Rest.remove notFound deleted records rid)) rid =
    Rest.fail 404 notFound.
Proof.
  intros Hnodup. unfold Rest.get_by_id.
  rewrite (proj2 (rest_findIndex_None _ rid)); [reflexivity |].
  unfold Rest.remove.
  destruct (Rest.findIndex records rid) as [[i first]|] eqn:E; cbn [snd].
  - apply rest_findIndex_Some in E as (Hi & Hfirst & _).
    intros r [j Hj]%list_elem_of_lookup Hid.
    rewrite list_lookup_delete in Hj.
    assert (i = if decide (j < i) then j else S j) as Heq.
    { apply (NoDup_lookup (ids records) _ _ (Some (Rest.VString rid)) Hnodup);
        unfold ids; rewrite list_lookup_fmap.
      - by rewrite Hi; cbn; rewrite Hfirst.
      - by rewrite Hj; cbn; rewrite Hid. }
    case_decide; lia.
  - by apply rest_findIndex_None.
Qed.

Lemma get_after_remove_example :
  let a : Rest.Obj := {[ "id" := Rest.VString "u-1"; "name" := Rest.VString "A" ]} in
  let b : Rest.Obj := {[ "id" := Rest.VString "u-2"; "name" := Rest.VString "B" ]} in
  Users.get_user (snd (Users.delete_user [a; b] "u-1")) "u-1" =
    Rest.fail 404 "User not found".
Proof.
  intros a b. apply get_after_remove.
  unfold ids. cbn. repeat constructor; rewrite ?elem_of_cons, ?elem_of_nil;
    intros H; repeat destruct H as [H | H]; try discriminate H; done.
Defined.

(** ** Creating a user *)

Lemma truthy_Some v : Rest.truthy v = true -> exists x, v = Some x.
Proof. destruct v as [x|]; [eauto | discriminate]. Qed.

Lemma post_user_duplicate uuid users body :
  Rest.truthy (body !! "name") = true ->
  Rest.truthy (body !! "email") = true ->
  (exists u, u ∈ users /\
     Rest.strict_eq (u !! "email") (body !! "email") = true) ->
  Users.post_user uuid users body =
    (Rest.fail 400 "Email already exists", users).
Proof.
  intros Hname Hemail (u & Hin & Heq). unfold Users.post_user.
  rewrite Hname, Hemail. cbn [negb orb].
  destruct (list_find_elem_of
              (fun u => Rest.strict_eq (u !! "email") (body !! "email") = true)
              users u Hin Heq) as [[i first] ->].
  reflexivity.
Qed.

(** X16. A user creation without a name or an email (absent, [null],
    [false], zero or the empty string), or with an email that some stored
    user already has, is refused with 400 and the users are left as they
    were. *)
Theorem post_user_refused uuid users body :
  (Rest.truthy (body !! "name") = false \/ Rest.truthy (body !! "email") = false ->
   Users.post_user uuid users body =
     (Rest.fail 400 "Name and email are required", users)) /\
  (Rest.truthy (body !! "name") = true ->
   Rest.truthy (body !! "email") = true ->
   (exists u, u ∈ users /\
      Rest.strict_eq (u !! "email") (body !! "email") = true) ->
   Users.post_user uuid users body =
     (Rest.fail 400 "Email already exists", users)).
Proof.
  split.
  - intros H. unfold Users.post_user.
    destruct H as [-> | ->]; [reflexivity | by rewrite orb_true_r].
  - apply post_user_duplicate.
Qed.

Lemma post_user_refused_example :
  let john : Rest.Obj :=
    {[ "id" := Rest.VString "u-1"; "name" := Rest.VString "John Doe";
       "email" := Rest.VString "john.doe@example.com" ]} in
  Users.post_user "u-2" [john] {[ "name" := Rest.VString "Jane" ]} =
    (Rest.fail 400 "Name and email are required", [john]) /\
  Users.post_user "u-2" [john]
    {[ "name" := Rest.VString "Johnny";
       "email" := Rest.VString "john.doe@example.com" ]} =
    (Rest.fail 400 "Email already exists", [john]).
Proof.
  intros john. split.
  - apply (proj1 (post_user_refused "u-2" [john] {[ "name" := Rest.VString "Jane" ]})).
    right. reflexivity.
  - apply (proj2 (post_user_refused "u-2" [john]
                    {[ "name" := Rest.VString "Johnny";
                       "email" := Rest.VString "john.doe@example.com" ]})).
    + reflexivity.
    + reflexivity.
    + exists john. split; [apply list_elem_of_here | reflexivity].
Defined.

(** X17. A user creation with a name and an email that no stored user has
    answers 201 and adds one user at the end.  The new user has the id
    drawn, the name and the email of the body, the address and the phone of
    the body or the empty string where the body has none, and no other
    property: whatever else the body carries is not stored. *)
Theorem post_user_created uuid users body :
  Rest.truthy (body !! "name") = true ->
  Rest.truthy (body !! "email") = true ->
  (forall u, u ∈ users ->
     Rest.strict_eq (u !! "email") (body !! "email") = false) ->
  exists newUser,
    Users.post_user uuid users body =
      (Rest.mkResp 201 (Rest.Object newUser), users ++ [newUser]) /\
    newUser !! "id" = Some (Rest.VString uuid) /\
    newUser !! "name" = body !! "name" /\
    newUser !! "email" = body !! "email" /\
    newUser !! "address" =
      Some (Rest.or_else (body !! "address") (Rest.VString "")) /\
    newUser !! "phone" =
      Some (Rest.or_else (body !! "phone") (Rest.VString "")) /\
    dom newUser = ({["id"; "name"; "email"; "address"; "phone"]} : gset string).
Proof.
  intros Hname Hemail Hfree. unfold Users.post_user.
  rewrite Hname, Hemail. cbn [negb orb].
  replace (list_find _ users) with (@None (nat * Rest.Obj)).
  2:{ symmetry. apply list_find_None, Forall_forall. intros u Hin.
      rewrite (Hfree u Hin). discriminate. }
  destruct (truthy_Some _ Hname) as [name ->].
  destruct (truthy_Some _ Hemail) as [email ->].
  eexists. split; [reflexivity |]. cbn [Rest.prop].
  repeat split; by simplify_map_eq.
Qed.

Lemma post_user_created_example :
  let body : Rest.Obj :=
    {[ "name" := Rest.VString "Jane"; "email" := Rest.VString "jane@example.com";
       "role" := Rest.VString "admin" ]} in
  exists newUser,
    snd (Users.post_user "u-2" [] body) = [newUser] /\
    newUser !! "phone" = Some (Rest.VString "") /\
    newUser !! "role" = None.
Proof.
  intros body.
  destruct (post_user_created "u-2" [] body)
    as (newUser & Hpost & _ & _ & _ & _ & Hphone & Hdom).
  - reflexivity.
  - reflexivity.
  - intros u Hu. by apply elem_of_nil in Hu.
  - exists newUser. rewrite Hpost. split; [reflexivity |].
    split; [exact Hphone |].
    apply not_elem_of_dom. rewrite Hdom.
    rewrite !elem_of_union, !elem_of_singleton. intros H.
    repeat destruct H as [H | H]; discriminate H.
Defined.

(** X18. Read-back of a created user: when a creation is accepted and the
    id it drew is the id of no stored user, a read of that id returns
    exactly the user that the creation returned. *)
Theorem get_user_after_post uuid users body newUser :
  fst (Users.post_user uuid users body) = Rest.mkResp 201 (Rest.Object newUser) ->
  (forall u, u ∈ users -> u !! "id" <> Some (Rest.VString uuid)) ->
  Users.get_user (snd (Users.post_user uuid users body)) uuid =
    Rest.json (Rest.Object newUser).
Proof.
  unfold Users.post_user.
  destruct (negb (Rest.truthy (body !! "name")) || negb (Rest.truthy (body !! "email")));
    [discriminate |].
  destruct (list_find _ users) as [[i u]|]; [discriminate |].
  cbn [fst snd]. intros [= <-] Hfresh.
  unfold Users.get_user, Rest.get_by_id, Rest.findIndex.
  rewrite list_find_app_r
    by (apply (proj2 (rest_findIndex_None users uuid)); exact Hfresh).
  cbn [list_find]. rewrite decide_True; [reflexivity |].
  apply strict_eq_string. unfold Rest.prop at 1. apply lookup_insert_eq.
Qed.

Lemma get_user_after_post_example :
  let body : Rest.Obj :=
    {[ "name" := Rest.VString "Jane"; "email" := Rest.VString "jane@example.com" ]} in
  exists newUser,
    fst (Users.post_user "u-2" [] body) = Rest.mkResp 201 (Rest.Object newUser) /\
    Users.get_user (snd (Users.post_user "u-2" [] body)) "u-2" =
      Rest.json (Rest.Object newUser).
Proof.
  intros body. eexists. split; [reflexivity |].
  apply get_user_after_post; [reflexivity |].
  intros u Hu. by apply elem_of_nil in Hu.
Defined.

(** ** Emails *)

Lemma distinct_emails_snoc users newUser :
  distinct_emails users ->
  (forall u, u ∈ users ->
     Rest.strict_eq (u !! "email") (newUser !! "email") = false) ->
  distinct_emails (users ++ [newUser]).
Proof.
  intros Hdistinct Hfree i j u v Hi Hj Hij.
  apply lookup_snoc_Some in Hi as [[Hi Hu] | [Hi ->]];
    apply lookup_snoc_Some in Hj as [[Hj Hv] | [Hj ->]].
  - by apply (Hdistinct i j).
  - apply Hfree. by eapply list_elem_of_lookup_2.
  - rewrite strict_eq_sym. apply Hfree. by eapply list_elem_of_lookup_2.
  - lia.
Qed.

(** X19. Creating and removing users keeps emails distinct: if no two
    stored users have the same email, none do after any creation (accepted
    or refused) and after any removal. *)
Theorem distinct_emails_kept uuid users body rid :
  distinct_emails users ->
  distinct_emails (snd (Users.post_user uuid users body)) /\
  distinct_emails (snd (Users.delete_user users rid)).
Proof.
  intros Hdistinct. split.
  - unfold Users.post_user.
    destruct (negb (Rest.truthy (body !! "name")) || negb (Rest.truthy (body !! "email")))
      eqn:Hreq; [exact Hdistinct |].
    destruct (list_find _ users) as [[i u]|] eqn:Hfind; [exact Hdistinct |].
    cbn [snd]. apply distinct_emails_snoc; [exact Hdistinct |].
    apply orb_false_iff in Hreq as [Hname%negb_false_iff Hemail%negb_false_iff].
    destruct (truthy_Some _ Hname) as [name Hn].
    destruct (truthy_Some _ Hemail) as [email He].
    intros u Hin. rewrite Hn, He. cbn [Rest.prop]. simplify_map_eq.
    apply list_find_None in Hfind. rewrite Forall_forall in Hfind.
    specialize (Hfind u Hin). rewrite He in Hfind.
    by destruct (Rest.strict_eq (u !! "email") (Some email)).
  - unfold Users.delete_user, Rest.remove.
    destruct (Rest.findIndex users rid) as [[i first]|]; [| exact Hdistinct].
    cbn [snd]. intros j k u v Hj Hk Hjk.
    rewrite list_lookup_delete in Hj. rewrite list_lookup_delete in Hk.
    eapply Hdistinct; [exact Hj | exact Hk |].
    repeat case_decide; lia.
Qed.

Lemma distinct_emails_kept_example :
  let john : Rest.Obj :=
    {[ "id" := Rest.VString "u-1"; "name" := Rest.VString "John Doe";
       "email" := Rest.VString "john.doe@example.com" ]} in
  let body : Rest.Obj :=
    {[ "name" := Rest.VString "Jane"; "email" := Rest.VString "jane@example.com" ]} in
  distinct_emails (snd (Users.post_user "u-2" [john] body)).
Proof.
  intros john body.
  apply (distinct_emails_kept "u-2" [john] body "u-1").
  intros i j u v Hi Hj Hij.
  destruct i as [|i], j as [|j]; try discriminate; congruence.
Defined.

Lemma strict_eq_refl v : Rest.truthy v = true -> Rest.strict_eq v v = true.
Proof.
  destruct v as [[|b|x|s]|]; simpl; try discriminate.
  - by destruct b.
  - unfold is_nan. destruct (x =? x)%float; [reflexivity |].
    by rewrite orb_true_r.
  - intros _. apply String.eqb_refl.
Qed.

(** X20. An email can be used once: after a creation that was accepted,
    a further creation with a name and the same email is refused with 400
    "Email already exists", whatever id it would draw, and adds nothing. *)
Theorem post_user_twice uuid uuid' users body body' newUser :
  fst (Users.post_user uuid users body) = Rest.mkResp 201 (Rest.Object newUser) ->
  Rest.truthy (body' !! "name") = true ->
  body' !! "email" = body !! "email" ->
  Users.post_user uuid' (snd (Users.post_user uuid users body)) body' =
    (Rest.fail 400 "Email already exists", snd (Users.post_user uuid users body)).
Proof.
  intros Hfirst Hname Hsame.
  assert (Rest.truthy (body !! "email") = true /\
          snd (Users.post_user uuid users body) = users ++ [newUser] /\
          newUser !! "email" = body !! "email") as (Hemail & -> & Hnew).
  { revert Hfirst. unfold Users.post_user.
    destruct (negb (Rest.truthy (body !! "name")) || negb (Rest.truthy (body !! "email")))
      eqn:Hreq; [discriminate |].
    apply orb_false_iff in Hreq as [Hn%negb_false_iff He%negb_false_iff].
    destruct (list_find _ users) as [[i u]|]; [discriminate |].
    cbn [fst snd]. intros [= <-]. split; [exact He |]. split; [reflexivity |].
    destruct (truthy_Some _ Hn) as [name ->].
    destruct (truthy_Some _ He) as [email ->].
    cbn [Rest.prop]. by simplify_map_eq. }
  apply (post_user_duplicate uuid' (users ++ [newUser]) body').
  - exact Hname.
  - by rewrite Hsame.
  - exists newUser. split; [apply elem_of_app; right; apply list_elem_of_here |].
    rewrite Hsame, Hnew. by apply strict_eq_refl.
Qed.

Lemma post_user_twice_example :
  let body : Rest.Obj :=
    {[ "name" := Rest.VString "Jane"; "email" := Rest.VString "jane@example.com" ]} in
  let body' : Rest.Obj :=
    {[ "name" := Rest.VString "Janet"; "email" := Rest.VString "jane@example.com" ]} in
  fst (Users.post_user "u-3" (snd (Users.post_user "u-2" [] body)) body') =
    Rest.fail 400 "Email already exists".
Proof.
  intros body body'.
  erewrite (post_user_twice "u-2" "u-3" [] body body'); reflexivity.
Defined.

(** ** Reading back an update *)

(** X21. A read after an update returns what the update answered: the
    merged record when the id is there, 404 when it is not. *)
Theorem get_after_put notFound records rid body :
  Rest.get_by_id notFound (snd (Rest.put notFound records rid body)) rid =
    fst (Rest.put notFound records rid body).
Proof.
  unfold Rest.put.
  destruct (Rest.findIndex records rid) as [[i old]|] eqn:E; cbn [fst snd].
  - unfold Rest.get_by_id.
    by rewrite (rest_findIndex_insert records rid i old
                  (<["id" := Rest.VString rid]> (body ∪ old)) E)
      by apply lookup_insert_eq.
  - unfold Rest.get_by_id. by rewrite E.
Qed.

(** X22. A read of an order after a status update to a recognized status
    returns what the update answered: the order with its new status when
    the id is there, 404 when it is not. *)
Theorem get_order_after_patch store rid s :
  s ∈ validStatuses ->
  get_order (snd (patch_status store rid (Some s))) rid =
    fst (patch_status store rid (Some s)).
Proof.
  intros Hs. unfold patch_status.
  rewrite (valid_status_truthy s Hs), (proj2 (includes_elem_of _ _) Hs).
  cbn [negb orb].
  destruct (findIndex store rid) as [[i o]|] eqn:E; cbn [fst snd].
  - unfold get_order.
    by rewrite (findIndex_alter store rid i o (set_status s)).
  - unfold get_order. by rewrite E.
Qed.

Lemma get_order_after_patch_example :
  let store := seed "o-1" "2024-01-01T00:00:00.000Z" in
  exists shipped,
    get_order (snd (patch_status store "o-1" (Some "shipped"))) "o-1" =
      json (OrderBody shipped) /\
    status shipped = "shipped".
Proof.
  intros store. eexists.
  rewrite (get_order_after_patch store "o-1" "shipped").
  - split; reflexivity.
  - unfold validStatuses. rewrite !elem_of_cons. auto.
Defined.

(** * The health check, backend by backend *)

(** X23. When the HTTP client loads, a health check probes the three
    backends once each, in the order books, users, orders, whatever the
    earlier probes gave, and reports for each backend the verdict of its own
    probe alone; when the client does not load, it probes none. *)
Theorem health_probes_each env :
  (Gateway.axios_loads env = true ->
   fst <$> snd (Gateway.get_health env) =
     [Gateway.Books; Gateway.Users; Gateway.Orders] /\
   forall s,
     Gateway.reported (fst (Gateway.get_health env)) s =
       Gateway.verdict (Gateway.probe env s)) /\
  (Gateway.axios_loads env = false -> snd (Gateway.get_health env) = []).
Proof.
  split.
  - intros Hload. rewrite (get_health_loaded env Hload).
    split; [reflexivity |]. by intros [].
  - intros Hload. by rewrite (get_health_not_loaded env Hload).
Qed.

Lemma health_probes_each_example :
  let env :=
    Gateway.mkEnv true
      (fun s => match s with Gateway.Books => false | _ => true end)
      "2024-01-01T00:00:00.000Z" in
  Gateway.reported (fst (Gateway.get_health env)) Gateway.Books = "unhealthy" /\
  Gateway.reported (fst (Gateway.get_health env)) Gateway.Orders = "healthy".
Proof.
  intros env.
  destruct (proj1 (health_probes_each env) eq_refl) as [_ H].
  split; rewrite H; reflexivity.
Defined.
